(** * Elliptic curve / modular form visualiser: the numerical core

    Shallow embedding of [elliptic_curve.py] and [elliptic_curve1.1.py].

    The sources are read twice.

    On binary64 (module [Binary64]).  The numerical methods
    [get_y_values], [discriminant], [j_invariant] and
    [get_elliptic_curve_params] on the floats the interpreter computes
    with: Rocq's primitive floats, whose operations are the IEEE 754
    operations.  The two functions the code takes from libraries, the C
    library's [pow] and numpy's [exp], are parameters of the embedding
    (class [Libm]); the general theorems hold for every such library.
    The theorems about the values these methods return are stated there.

    On the reals.  The same methods with a finite float idealised as a
    real number [Fin r] (no rounding, no overflow), the IEEE special
    values [PInf], [NInf] and [NaN] kept, together with the code around
    them: the grid loops of [plot_modular_form], the sampling of the real
    locus, Python's [float(text)] and the update handler.  What is proved
    there is about the shape of these computations and about the
    mathematics of the two j paths, not about last digits.

    Exceptions.  Python-level operations that can raise return in the error
    type [py]; numpy scalar operations never raise (they warn and produce a
    special value) and are total functions.

    Assumed of the platform, on binary64: every arithmetic operation is
    rounded on its own (no fused multiply-add), and the C library reports
    a range error of [pow] as glibc does, on overflow and on underflow to
    zero only. *)

From Stdlib Require Import Floats.
From Stdlib Require Import Reals Lra Lia ZArith String Ascii.
From stdpp Require Import base list.

Local Open Scope R_scope.

(* ================================================================== *)
(** ** Python exceptions *)

Inductive exn : Type :=
| ZeroDivisionError
| ValueError
| IndexError
| OverflowError.

Inductive py (A : Type) : Type :=
| Ok (v : A)
| Raise (e : exn).
Arguments Ok {A} v.
Arguments Raise {A} e.

#[global] Instance py_ret : MRet py := fun A v => Ok v.

#[global] Instance py_bind : MBind py := fun A B k m =>
  match m with
  | Ok v => k v
  | Raise e => Raise e
  end.

(* ================================================================== *)
(** ** Floats: reals extended with the IEEE special values

    The idealised reading: on finite values every operation below is the
    exact operation of [R].  It rounds nothing, never overflows or
    underflows, and has one zero.  The operations of the interpreter
    itself are in [Binary64] further down. *)

Inductive pyfloat : Type :=
| Fin (r : R)
| PInf
| NInf
| NaN.

Definition is_finite (x : pyfloat) : Prop :=
  match x with Fin _ => True | _ => False end.

(** [float('inf')] *)
Definition float_inf : pyfloat := PInf.

(** Sign of a real, as the three-way test every special-value rule needs. *)
Inductive sign : Type := Neg | Zero | Pos.

Definition Rsign (r : R) : sign :=
  match total_order_T r 0 with
  | inleft (left _) => Neg
  | inleft (right _) => Zero
  | inright _ => Pos
  end.

Definition fsign (x : pyfloat) : option sign :=
  match x with
  | Fin r => Some (Rsign r)
  | PInf => Some Pos
  | NInf => Some Neg
  | NaN => None
  end.

(** unary minus *)
Definition fneg (x : pyfloat) : pyfloat :=
  match x with
  | Fin r => Fin (- r)
  | PInf => NInf
  | NInf => PInf
  | NaN => NaN
  end.

(** [x + y] *)
Definition fadd (x y : pyfloat) : pyfloat :=
  match x, y with
  | NaN, _ | _, NaN => NaN
  | Fin r, Fin s => Fin (r + s)
  | PInf, NInf | NInf, PInf => NaN
  | PInf, _ | _, PInf => PInf
  | NInf, _ | _, NInf => NInf
  end.

(** [x - y] *)
Definition fsub (x y : pyfloat) : pyfloat := fadd x (fneg y).

(** An infinity of the given sign; [inf * 0] is not a number. *)
Definition inf_of_sign (s : sign) : pyfloat :=
  match s with
  | Pos => PInf
  | Neg => NInf
  | Zero => NaN
  end.

Definition sign_mul (s t : sign) : sign :=
  match s, t with
  | Zero, _ | _, Zero => Zero
  | Pos, Pos | Neg, Neg => Pos
  | Pos, Neg | Neg, Pos => Neg
  end.

(** [x * y] *)
Definition fmul (x y : pyfloat) : pyfloat :=
  match x, y with
  | NaN, _ | _, NaN => NaN
  | Fin r, Fin s => Fin (r * s)
  | _, _ =>
      match fsign x, fsign y with
      | Some s, Some t => inf_of_sign (sign_mul s t)
      | _, _ => NaN
      end
  end.

(** [x ** n] for a literal exponent [n]: 2 and 3 in the sources.
    Idealised: the exact power, which never raises; Python's [**] with its
    [OverflowError] is [Binary64.float_pow]. *)
Fixpoint fpow (x : pyfloat) (n : nat) : pyfloat :=
  match n with
  | O => Fin 1
  | S k => fmul x (fpow x k)
  end.

(** IEEE division, as numpy scalars perform it: a zero divisor is not an
    error, it produces an infinity of the sign of the dividend, or [NaN]
    for [0/0]. *)
Definition fdiv_ieee (x y : pyfloat) : pyfloat :=
  match x, y with
  | NaN, _ | _, NaN => NaN
  | Fin r, Fin s =>
      match Rsign s with
      | Zero => inf_of_sign (Rsign r)
      | _ => Fin (r / s)
      end
  | Fin _, _ => Fin 0
  | _, Fin s =>
      match fsign x with
      | Some sx =>
          match Rsign s with
          | Zero => inf_of_sign sx
          | t => inf_of_sign (sign_mul sx t)
          end
      | None => NaN
      end
  | _, _ => NaN
  end.

(** [x == 0] *)
Definition feq0 (x : pyfloat) : bool :=
  match x with
  | Fin r => if Req_dec_T r 0 then true else false
  | _ => false
  end.

(** [x != 0]: the negation of [==], so it holds of [NaN]. *)
Definition fne0 (x : pyfloat) : bool := negb (feq0 x).

(** [x >= 0] *)
Definition fge0 (x : pyfloat) : bool :=
  match x with
  | Fin r => if Rle_dec 0 r then true else false
  | PInf => true
  | NInf | NaN => false
  end.

(** Python's [x / y] on floats: a zero divisor raises. *)
Definition py_truediv (x y : pyfloat) : py pyfloat :=
  if feq0 y then Raise ZeroDivisionError else Ok (fdiv_ieee x y).

(** [np.sqrt] *)
Definition np_sqrt (x : pyfloat) : pyfloat :=
  match x with
  | Fin r => if Rle_dec 0 r then Fin (sqrt r) else NaN
  | PInf => PInf
  | NInf | NaN => NaN
  end.

(** [np.log] *)
Definition np_log (x : pyfloat) : pyfloat :=
  match x with
  | Fin r =>
      match Rsign r with
      | Pos => Fin (ln r)
      | Zero => NInf
      | Neg => NaN
      end
  | PInf => PInf
  | NInf | NaN => NaN
  end.

(* ================================================================== *)
(** ** Complex numbers *)

(** A finite complex number. *)
Record C : Type := mkC { re : R; im : R }.

Definition RtoC (r : R) : C := mkC r 0.
Definition Ci : C := mkC 0 1.
Definition C0 : C := mkC 0 0.

Definition Cadd (z w : C) : C := mkC (re z + re w) (im z + im w).
Definition Csub (z w : C) : C := mkC (re z - re w) (im z - im w).
Definition Cmul (z w : C) : C :=
  mkC (re z * re w - im z * im w) (re z * im w + im z * re w).

Fixpoint Cpow (z : C) (n : nat) : C :=
  match n with
  | O => RtoC 1
  | S k => Cmul z (Cpow z k)
  end.

(** [np.exp] on a complex argument.  Idealised: the exact exponential,
    which is never zero and never infinite; in binary64 it underflows to
    zero from Im(tau) about 119 upwards ([Binary64.np_exp] is whatever the
    library returns). *)
Definition Cexp (z : C) : C :=
  mkC (exp (re z) * cos (im z)) (exp (re z) * sin (im z)).

(** Squared modulus and the quotient of the field of complex numbers. *)
Definition Cnorm2 (z : C) : R := re z * re z + im z * im z.

Definition Cdiv (z w : C) : C :=
  mkC ((re z * re w + im z * im w) / Cnorm2 w)
      ((im z * re w - re z * im w) / Cnorm2 w).

Definition C_eq_dec (z w : C) : {z = w} + {z <> w}.
Proof.
  destruct z as [a b], w as [c d].
  destruct (Req_dec_T a c) as [-> | Hac].
  - destruct (Req_dec_T b d) as [-> | Hbd].
    + left; reflexivity.
    + right; intros [= E]; exact (Hbd E).
  - right; intros [= E _]; exact (Hac E).
Defined.

(** A [np.complex128]: each component may be a special value. *)
Record complex128 : Type := mkNpc { real : pyfloat; imag : pyfloat }.

Definition of_C (z : C) : complex128 := mkNpc (Fin (re z)) (Fin (im z)).

(** A Python float stored where a complex is expected. *)
Definition of_float (x : pyfloat) : complex128 := mkNpc x (Fin 0).

Definition npc_add (z w : complex128) : complex128 :=
  mkNpc (fadd (real z) (real w)) (fadd (imag z) (imag w)).

(** numpy's scalar complex division.  A zero divisor gives no exception:
    each component of the dividend is divided by (positive) zero.
    Idealised elsewhere: the exact quotient; numpy's rounded algorithm is
    [Binary64.c_div]. *)
Definition np_div (z w : C) : complex128 :=
  if C_eq_dec w C0
  then mkNpc (fdiv_ieee (Fin (re z)) (Fin 0)) (fdiv_ieee (Fin (im z)) (Fin 0))
  else of_C (Cdiv z w).

(** [np.abs] of a complex: the hypotenuse; an infinite component wins
    over a [NaN] one. *)
Definition is_inf (x : pyfloat) : bool :=
  match x with PInf | NInf => true | _ => false end.

Definition np_abs (z : complex128) : pyfloat :=
  match real z, imag z with
  | Fin x, Fin y => Fin (sqrt (x * x + y * y))
  | x, y => if is_inf x || is_inf y then PInf else NaN
  end.

Declare Scope C_scope.
Delimit Scope C_scope with C.
Bind Scope C_scope with C.
Infix "+" := Cadd : C_scope.
Infix "-" := Csub : C_scope.
Infix "*" := Cmul : C_scope.
Infix "^" := Cpow : C_scope.
Coercion RtoC : R >-> C.

(* ================================================================== *)
(** ** class EllipticCurve *)

(** [self.a], [self.b] *)
Record EllipticCurve : Type := mkCurve { a : pyfloat; b : pyfloat }.

(** [get_y_values(self, x)] *)
Definition get_y_values (self : EllipticCurve) (x : pyfloat) : list pyfloat :=
  let y_squared := fadd (fadd (fpow x 3) (fmul (a self) x)) (b self) in
  if fge0 y_squared
  then [np_sqrt y_squared; fneg (np_sqrt y_squared)]
  else [].

(** [discriminant(self)] *)
Definition discriminant (self : EllipticCurve) : pyfloat :=
  fmul (Fin (-16))
       (fadd (fmul (Fin 4) (fpow (a self) 3)) (fmul (Fin 27) (fpow (b self) 2))).

(** What [j_invariant] returns: a float on the Weierstrass path, a
    [np.complex128] on the q-expansion path. *)
Inductive jvalue : Type :=
| JFloat (x : pyfloat)
| JComplex (z : complex128).

(** [q = np.exp(2 * np.pi * 1j * tau)] *)
Definition nome (tau : C) : C := Cexp (RtoC (2 * PI) * Ci * tau)%C.

(** [j_invariant(self, tau=None)] of [elliptic_curve1.1.py]. *)
Definition j_invariant (self : EllipticCurve) (tau : option C) : py jvalue :=
  match tau with
  | Some tau =>
      let q := nome tau in
      let j :=
        npc_add
          (npc_add
             (npc_add (np_div (RtoC 1) q) (of_C (RtoC 744)))
             (of_C (RtoC 196884 * q)%C))
          (of_C (RtoC 21493760 * q ^ 2)%C) in
      Ok (JComplex j)
  | None =>
      let discriminant := discriminant self in
      if feq0 discriminant
      then Ok (JFloat float_inf)
      else
        j ← py_truediv (fmul (Fin (-1728)) (fmul (Fin 4) (fpow (a self) 3)))
                       discriminant;
        Ok (JFloat j)
  end.

(** The truncated Eisenstein series, as functions of [q]. *)
Definition E4_of (q : C) : C := (RtoC 1 + RtoC 240 * q + RtoC 2160 * q ^ 2)%C.
Definition E6_of (q : C) : C := (RtoC 1 - RtoC 504 * q - RtoC 16632 * q ^ 2)%C.

(** [get_elliptic_curve_params(self, tau)] *)
Definition get_elliptic_curve_params (tau : C) : pyfloat * pyfloat :=
  let q := nome tau in
  let E4 := E4_of q in
  let E6 := E6_of q in
  let a := np_div (RtoC (-27) * E4)%C (RtoC 4 * E6)%C in
  let b := np_div (RtoC (-27) * (E4 ^ 3 - E6 ^ 2))%C (RtoC 4 * E6 ^ 2)%C in
  (real a, real b).

(** The older [elliptic_curve.py]: [j_invariant] accepts [tau] and ignores
    it; there is no q-expansion path. *)
Module Legacy.

Definition j_invariant (self : EllipticCurve) (tau : option C) : py jvalue :=
  let discriminant := discriminant self in
  if feq0 discriminant
  then Ok (JFloat float_inf)
  else
    j ← py_truediv (fmul (Fin (-1728)) (fmul (Fin 4) (fpow (a self) 3)))
                   discriminant;
    Ok (JFloat j).

End Legacy.

(* ================================================================== *)
(** ** The field over the upper half-plane ([plot_modular_form]) *)

(** [np.linspace(start, stop, num)] *)
Definition linspace (start stop : R) (num : nat) : list R :=
  let step := (stop - start) / INR (num - 1) in
  (fun k => start + INR k * step) <$> seq 0 num.

(** [np.meshgrid(x, y)]: both results have [len(y)] rows of [len(x)]. *)
Definition meshgrid (x y : list R) : list (list R) * list (list R) :=
  ((fun _ => x) <$> y, (fun yj => (fun _ => yj) <$> x) <$> y).

(** [X + 1j*Y], element by element. *)
Definition complex_grid (X Y : list (list R)) : list (list C) :=
  zip_with (zip_with (fun x y => (RtoC x + Ci * RtoC y)%C)) X Y.

(** [np.zeros_like(X, dtype=complex)] *)
Definition zeros_like (X : list (list R)) : list (list complex128) :=
  (fun row : list R => (fun _ => of_C C0) <$> row) <$> X.

(** [arr[j, i]]; an index out of range raises. *)
Definition getitem2 {A : Type} (arr : list (list A)) (j i : nat) : py A :=
  match arr !! j with
  | Some row =>
      match row !! i with
      | Some v => Ok v
      | None => Raise IndexError
      end
  | None => Raise IndexError
  end.

(** [arr[j, i] = v]; an index out of range raises. *)
Definition setitem2 {A : Type} (arr : list (list A)) (j i : nat) (v : A)
  : py (list (list A)) :=
  match arr !! j with
  | Some row =>
      if decide (i < length row)%nat
      then Ok (<[j := <[i := v]> row]> arr)
      else Raise IndexError
  | None => Raise IndexError
  end.

(** [for k in range(n): s = body(k, s)] *)
Fixpoint for_in {S : Type} (ks : list nat) (body : nat -> S -> py S) (s : S)
  : py S :=
  match ks with
  | [] => Ok s
  | k :: ks' => s' ← body k s; for_in ks' body s'
  end.

Definition for_range {S : Type} (n : nat) (body : nat -> S -> py S) (s : S)
  : py S :=
  for_in (seq 0 n) body s.

(** The body of the inner loop, from the parameters on: the value stored
    in the cell. *)
Definition cell_from_params (a_tau b_tau : pyfloat) : py complex128 :=
  let discriminant :=
    fmul (Fin (-16))
         (fadd (fmul (Fin 4) (fpow a_tau 3)) (fmul (Fin 27) (fpow b_tau 2))) in
  if fne0 discriminant
  then
    v ← py_truediv (fmul (Fin (-1728)) (fmul (Fin 4) (fpow a_tau 3)))
                   discriminant;
    Ok (of_float v)
  else Ok (of_float float_inf).

Definition cell_value (current_tau : C) : py complex128 :=
  let '(a_tau, b_tau) := get_elliptic_curve_params current_tau in
  cell_from_params a_tau b_tau.

(** The value [cell_value] stores, as a function (it never raises, see
    [cell_value_total]). *)
Definition cell_or_nan (tau : C) : complex128 :=
  match cell_value tau with
  | Ok v => v
  | Raise _ => of_float NaN
  end.

(** The nested loops filling [Z], for sample vectors [x] and [y]. *)
Definition fill_Z (x y : list R) : py (list (list complex128)) :=
  let '(X, Y) := meshgrid x y in
  let tau := complex_grid X Y in
  let Z := zeros_like X in
  for_range (length x) (fun i Z =>
    for_range (length y) (fun j Z =>
      current_tau ← getitem2 tau j i;
      v ← cell_value current_tau;
      setitem2 Z j i v) Z) Z.

(** [Z_abs = np.log(np.abs(Z) + 1)] *)
Definition log_magnitude (Z : list (list complex128)) : list (list pyfloat) :=
  (fun row : list complex128 =>
     (fun z => np_log (fadd (np_abs z) (Fin 1))) <$> row) <$> Z.

Definition field_over (x y : list R) : py (list (list pyfloat)) :=
  Z ← fill_Z x y; Ok (log_magnitude Z).

(** What [plot_modular_form] computes before handing over to the renderer:
    the field on the fixed 40 by 40 grid, the q-expansion values at the two
    marked points, and the value shown in the title. *)
Record ModularPlot : Type := mkPlot {
  Z_abs : list (list pyfloat);
  j_i : jvalue;
  j_rho : jvalue;
  title_j : jvalue
}.

Definition plot_modular_form (self : EllipticCurve) : py ModularPlot :=
  let x := linspace (-3) 3 40 in
  let y := linspace (1 / 10) 3 40 in
  Z_abs ← field_over x y;
  j_i ← j_invariant self (Some (RtoC 0 + Ci * RtoC 1)%C);
  j_rho ← j_invariant self (Some (RtoC (1 / 2) + Ci * RtoC (sqrt 3 / 2))%C);
  title_j ← j_invariant self None;
  Ok (mkPlot Z_abs j_i j_rho title_j).

(** [plot_current_curve]: the sampled real locus, as the lists
    [points_x], [points_y] handed to the renderer. *)
Definition plot_current_curve (self : EllipticCurve)
  : list pyfloat * list pyfloat :=
  let x := linspace (-5) 5 1000 in
  let pts :=
    flat_map (fun xi => map (fun y => (Fin xi, y)) (get_y_values self (Fin xi)))
             x in
  (map fst pts, map snd pts).

(* ================================================================== *)
(** ** Python's [float(text)] *)

(** The syntax [float] accepts: optional surrounding white space, an
    optional sign, then [inf], [infinity] or [nan] in any letter case, or
    a decimal literal with optional fraction and exponent, where digits may
    be grouped by single underscores.  Anything else is a [ValueError].
    Idealised in two ways: the digits are the ASCII digits (Python also
    accepts the other Unicode decimal digits), and the value of a decimal
    literal is the real number it denotes, neither rounded nor saturated
    to an infinity or to zero when it is out of range. *)
Inductive literal : Type :=
| LDec (negative : bool) (mantissa : Z) (exponent : Z)
| LInf (negative : bool)
| LNan.

Definition is_space (c : ascii) : bool :=
  let n := N_of_ascii c in
  (N.eqb n 32 || (N.leb 9 n && N.leb n 13))%bool.

Definition digit_of (c : ascii) : option Z :=
  let n := N_of_ascii c in
  if (N.leb 48 n && N.leb n 57)%bool then Some (Z.of_N n - 48)%Z else None.

Definition lower (c : ascii) : ascii :=
  let n := N_of_ascii c in
  if (N.leb 65 n && N.leb n 90)%bool then ascii_of_N (n + 32) else c.

(** A run of digits continuing the number [acc]; [cnt] digits of the run
    have been read.  Returns the number, the length of the run and the
    rest of the input. *)
Fixpoint digits_from (cs : list ascii) (acc : Z) (cnt : nat)
  : Z * nat * list ascii :=
  match cs with
  | [] => (acc, cnt, [])
  | c :: cs' =>
      match digit_of c with
      | Some d => digits_from cs' (10 * acc + d)%Z (S cnt)
      | None =>
          match cs' with
          | c2 :: cs'' =>
              match digit_of c2 with
              | Some d =>
                  if (Ascii.eqb c "_" && negb (Nat.eqb cnt 0))%bool
                  then digits_from cs'' (10 * acc + d)%Z (S cnt)
                  else (acc, cnt, cs)
              | None => (acc, cnt, cs)
              end
          | [] => (acc, cnt, cs)
          end
      end
  end.

Definition split_sign (cs : list ascii) : bool * list ascii :=
  match cs with
  | c :: cs' =>
      if Ascii.eqb c "-" then (true, cs')
      else if Ascii.eqb c "+" then (false, cs')
      else (false, cs)
  | [] => (false, [])
  end.

(** The exponent part, possibly absent; [None] when it is malformed. *)
Definition exponent_of (cs : list ascii) : option Z :=
  match cs with
  | [] => Some 0%Z
  | c :: cs' =>
      if Ascii.eqb (lower c) "e" then
        let '(neg, ds) := split_sign cs' in
        match digits_from ds 0 0 with
        | (_, O, _) => None
        | (e, S _, []) => Some (if neg then - e else e)%Z
        | (_, S _, _ :: _) => None
        end
      else None
  end.

Definition decimal_of (neg : bool) (cs : list ascii) : option literal :=
  let '(m1, n1, rest1) := digits_from cs 0 0 in
  let '(m, n2, rest2) :=
    match rest1 with
    | c :: rest' =>
        if Ascii.eqb c "." then digits_from rest' m1 0 else (m1, O, rest1)
    | [] => (m1, O, [])
    end in
  if Nat.eqb (n1 + n2) 0 then None
  else
    match exponent_of rest2 with
    | Some e => Some (LDec neg m (e - Z.of_nat n2))
    | None => None
    end.

Definition strip (cs : list ascii) : list ascii :=
  let drop := fix drop (l : list ascii) : list ascii :=
    match l with
    | c :: l' => if is_space c then drop l' else l
    | [] => []
    end in
  rev (drop (rev (drop cs))).

Definition float_syntax (text : string) : option literal :=
  let '(neg, body) := split_sign (strip (list_ascii_of_string text)) in
  let word := string_of_list_ascii (map lower body) in
  if String.eqb word "inf" then Some (LInf neg)
  else if String.eqb word "infinity" then Some (LInf neg)
  else if String.eqb word "nan" then Some LNan
  else decimal_of neg body.

Definition literal_value (l : literal) : pyfloat :=
  match l with
  | LDec neg m e =>
      let v := IZR m * powerRZ 10 e in
      Fin (if neg then - v else v)
  | LInf neg => if neg then NInf else PInf
  | LNan => NaN
  end.

(** [float(text)] *)
Definition float_of_str (text : string) : py pyfloat :=
  match float_syntax text with
  | Some l => Ok (literal_value l)
  | None => Raise ValueError
  end.

(* ================================================================== *)
(** ** The update handler ([update_plot] in [interactive_plot]) *)

(** The objects the handler touches: the model ([self.a], [self.b]), the
    two text boxes, what was printed, and what was last handed to the
    renderer. *)
Record Gui : Type := mkGui {
  curve : EllipticCurve;
  text_box_a : string;
  text_box_b : string;
  stdout : list string;
  canvas : option (list pyfloat * list pyfloat * ModularPlot)
}.

(** Statements: they change the objects and may raise; what was changed
    before an exception stays changed. *)
Definition Act (A : Type) : Type := Gui -> py A * Gui.

#[global] Instance act_ret : MRet Act := fun A v g => (Ok v, g).

#[global] Instance act_bind : MBind Act := fun A B k m g =>
  match m g with
  | (Ok v, g') => k v g'
  | (Raise e, g') => (Raise e, g')
  end.

Definition eval {A : Type} (f : Gui -> py A) : Act A := fun g => (f g, g).

Definition set_a (v : pyfloat) : Act unit := fun g =>
  (Ok tt, mkGui (mkCurve v (b (curve g)))
                (text_box_a g) (text_box_b g) (stdout g) (canvas g)).

Definition set_b (v : pyfloat) : Act unit := fun g =>
  (Ok tt, mkGui (mkCurve (a (curve g)) v)
                (text_box_a g) (text_box_b g) (stdout g) (canvas g)).

Definition print (line : string) : Act unit := fun g =>
  (Ok tt, mkGui (curve g) (text_box_a g) (text_box_b g)
                (stdout g ++ [line]) (canvas g)).

Definition draw (pts : list pyfloat * list pyfloat) (m : ModularPlot)
  : Act unit := fun g =>
  (Ok tt, mkGui (curve g) (text_box_a g) (text_box_b g) (stdout g)
                (Some (pts, m))).

Definition exn_eqb (e1 e2 : exn) : bool :=
  match e1, e2 with
  | ZeroDivisionError, ZeroDivisionError
  | ValueError, ValueError
  | IndexError, IndexError
  | OverflowError, OverflowError => true
  | _, _ => false
  end.

(** [try: body  except e: handler] *)
Definition try_except (body : Act unit) (e : exn) (handler : Act unit)
  : Act unit := fun g =>
  match body g with
  | (Raise e', g') => if exn_eqb e e' then handler g' else (Raise e', g')
  | r => r
  end.

Definition update_plot : Act unit :=
  try_except
    (new_a ← eval (fun g => float_of_str (text_box_a g));
     _ ← set_a new_a;
     new_b ← eval (fun g => float_of_str (text_box_b g));
     _ ← set_b new_b;
     pts ← eval (fun g => Ok (plot_current_curve (curve g)));
     m ← eval (fun g => plot_modular_form (curve g));
     draw pts m)
    ValueError
    (print "Please enter valid numbers").

(* ================================================================== *)
(** ** The formulas of the specification, over the field of complex
       numbers, for comparison with the code *)

(** Delta(a,b) = -16(4a^3 + 27b^2) *)
Definition Delta (a b : R) : R := -16 * (4 * a ^ 3 + 27 * b ^ 2).

(** j = -1728 * 4a^3 / Delta(a,b) *)
Definition j_weierstrass (a b : R) : R := -1728 * (4 * a ^ 3) / Delta a b.

(** j(tau) ~ 1/q + 744 + 196884 q + 21493760 q^2 *)
Definition j_q_expansion (q : C) : C :=
  (Cdiv (RtoC 1) q + RtoC 744 + RtoC 196884 * q + RtoC 21493760 * q ^ 2)%C.

(** a = -27 E4 / (4 E6),  b = -27 (E4^3 - E6^2) / (4 E6^2), then the real
    parts. *)
Definition curve_params_spec (tau : C) : R * R :=
  let q := nome tau in
  let E4 := E4_of q in
  let E6 := E6_of q in
  (re (Cdiv (RtoC (-27) * E4) (RtoC 4 * E6))%C,
   re (Cdiv (RtoC (-27) * (E4 ^ 3 - E6 ^ 2)) (RtoC 4 * E6 ^ 2))%C).

(** The reference fixture of [main]: [EllipticCurve(a=-1, b=0)]. *)
Definition fixture : EllipticCurve := mkCurve (Fin (-1)) (Fin 0).

(* ================================================================== *)
(** ** The remaining plotting code *)

(** [np.abs] of a float *)
Definition fabs (x : pyfloat) : pyfloat :=
  match x with
  | Fin r => Fin (Rabs r)
  | PInf | NInf => PInf
  | NaN => NaN
  end.

(** [np.abs(j)] for what [j_invariant] returned. *)
Definition jabs (j : jvalue) : pyfloat :=
  match j with
  | JFloat x => fabs x
  | JComplex z => np_abs z
  end.

(** [np.full_like(X, v)] *)
Definition full_like {A B : Type} (X : list (list A)) (v : B) : list (list B) :=
  (fun row : list A => (fun _ => v) <$> row) <$> X.

(** [plot_modular_form] of the older [elliptic_curve.py]: one value of j,
    for the stored curve, spread over a 20 by 20 grid.  Returns the field
    [Z] and the [j] shown in the title. *)
Module LegacyPlot.

Definition plot_modular_form (self : EllipticCurve)
  : py (list (list pyfloat) * jvalue) :=
  j ← Legacy.j_invariant self None;
  let x := linspace (-2) 2 20 in
  let y := linspace (1 / 10) 2 20 in
  let '(X, Y) := meshgrid x y in
  let Z := full_like X (jabs j) in
  let Z := (fun row : list pyfloat =>
              (fun z => np_log (fadd z (Fin 1))) <$> row) <$> Z in
  Ok (Z, j).

End LegacyPlot.

(** The right-hand panel of [plot_curve]: the points
    [(r cos t, r sin t)] with [r = |sin t + cos t|], for 1000 values of [t]
    in [0, 2 pi]. *)
Definition modular_form_representation : list (R * R) :=
  (fun t => let r := Rabs (sin t + cos t) in (r * cos t, r * sin t))
    <$> linspace 0 (2 * PI) 1000.

(** Complex conjugate, and the reflection of the upper half-plane in the
    imaginary axis. *)
Definition Cconj (z : C) : C := mkC (re z) (- im z).
Definition mirror (tau : C) : C := mkC (- re tau) (im tau).

(* ================================================================== *)
(** ** The same methods on IEEE 754 binary64

    The embedding above idealises floats as real numbers.  The module below
    reads the numerical methods again on binary64 itself, Rocq's primitive
    floats: every [+], [-], [*], [/] and [sqrt] is the IEEE operation,
    rounded to nearest even, in the order the interpreter evaluates the
    expression, each operation rounded on its own.  Overflow, underflow,
    signed zeros and NaN are what the hardware gives, and what Python adds
    to it is written out: [**] on a Python float raises [OverflowError]
    when the power overflows, [/] raises [ZeroDivisionError] on a zero
    divisor, numpy scalars raise nothing. *)

Module Binary64.

Local Open Scope float_scope.

(** A [np.complex128], and a Python [complex]: two binary64 components. *)
Record complex128 : Type := mkComplex { real : float; imag : float }.

(** The two library functions the sources call that are not IEEE
    operations: the C library's [pow], behind Python's and numpy's [**] on
    floats, and numpy's [exp] on a complex argument. *)
Class Libm : Type := {
  libm_pow : float -> float -> float;
  np_exp : complex128 -> complex128
}.

(** An integer literal where a float is expected. *)
Definition of_int (n : Z) : float :=
  SF2Prim (binary_normalize prec emax n 0 false).

(** The real number a finite float stands for (0 for the special values). *)
Definition to_R (x : float) : R :=
  match Prim2SF x with
  | S754_finite s m e =>
      let v := (IZR (Z.pos m) * powerRZ 2 e)%R in
      if s then (- v)%R else v
  | _ => 0%R
  end.

(** [x / y] on Python floats: a zero divisor, of either sign, raises. *)
Definition py_truediv (x y : float) : py float :=
  if y =? 0 then Raise ZeroDivisionError else Ok (x / y).

(** [v ** n] on a Python float, for a positive integer literal [n]
    ([float_pow] of CPython): the special values and 1 are answered without
    the C library; otherwise [pow] is called on the absolute value and an
    infinite result is reported as [OverflowError].  A result that
    underflows, to zero included, is returned as it is. *)
Definition float_pow {L : Libm} (v : float) (n : Z) : py float :=
  if is_nan v then Ok v
  else if is_infinity v then Ok (if Z.odd n then v else abs v)
  else if v =? 0 then Ok (if Z.odd n then v else 0)
  else
    let negate_result := (v <? 0) && Z.odd n in
    let iv := if v <? 0 then - v else v in
    if iv =? 1 then Ok (if negate_result then -1 else 1)
    else
      let ix := libm_pow iv (of_int n) in
      if is_infinity ix then Raise OverflowError
      else Ok (if negate_result then - ix else ix).

(** [x ** n] on a [np.float64]: the C library's [pow], nothing raised. *)
Definition np_power {L : Libm} (x : float) (n : Z) : float :=
  libm_pow x (of_int n).

(** The argument [x] of [get_y_values]: a [np.float64] when the plotting
    code calls it, a Python float when a caller passes one. *)
Inductive scalar : Type :=
| PyFloat (v : float)
| NpFloat64 (v : float).

Definition value (x : scalar) : float :=
  match x with PyFloat v | NpFloat64 v => v end.

Definition scalar_pow {L : Libm} (x : scalar) (n : Z) : py float :=
  match x with
  | PyFloat v => float_pow v n
  | NpFloat64 v => Ok (np_power v n)
  end.

(** numpy's arithmetic on [complex128] scalars. *)
Definition complex_of_int (n : Z) : complex128 := mkComplex (of_int n) 0.

Definition c_add (z w : complex128) : complex128 :=
  mkComplex (real z + real w) (imag z + imag w).

Definition c_sub (z w : complex128) : complex128 :=
  mkComplex (real z - real w) (imag z - imag w).

Definition c_mul (z w : complex128) : complex128 :=
  mkComplex (real z * real w - imag z * imag w)
            (real z * imag w + imag z * real w).

Definition c_is_zero (z : complex128) : bool := (real z =? 0) && (imag z =? 0).

(** Division by Smith's method; a zero divisor gives no exception: each
    component of the dividend is divided by (positive) zero. *)
Definition c_div (z w : complex128) : complex128 :=
  let in1r := real z in
  let in1i := imag z in
  let in2r := real w in
  let in2i := imag w in
  let in2r_abs := abs in2r in
  let in2i_abs := abs in2i in
  if in2i_abs <=? in2r_abs then
    if (in2r_abs =? 0) && (in2i_abs =? 0)
    then mkComplex (in1r / in2r_abs) (in1i / in2r_abs)
    else
      let rat := in2i / in2r in
      let scl := 1 / (in2r + in2i * rat) in
      mkComplex ((in1r + in1i * rat) * scl) ((in1i - in1r * rat) * scl)
  else
    let rat := in2r / in2i in
    let scl := 1 / (in2i + in2r * rat) in
    mkComplex ((in1r * rat + in1i) * scl) ((in1i * rat - in1r) * scl).

(** [z ** n] for a positive integer literal [n] ([npy_cpow]): a zero base
    gives zero; 1, 2 and 3 are written out; larger exponents, below 100,
    go through the binary expansion of [n].  The sources use 2 and 3. *)
Fixpoint c_pow_bits (n : positive) (aa p : complex128) : complex128 :=
  match n with
  | xH => c_mul aa p
  | xO n' => c_pow_bits n' aa (c_mul p p)
  | xI n' => c_pow_bits n' (c_mul aa p) (c_mul p p)
  end.

Definition c_pow (z : complex128) (n : positive) : complex128 :=
  if c_is_zero z then mkComplex 0 0
  else
    match n with
    | 1%positive => z
    | 2%positive => c_mul z z
    | 3%positive => c_mul z (c_mul z z)
    | _ => c_pow_bits n (mkComplex 1 0) z
    end.

(** [np.pi] *)
Definition np_pi : float := 0x1.921fb54442d18p+1.

(** [2 * np.pi * 1j] *)
Definition two_pi_j : complex128 :=
  c_mul (mkComplex (of_int 2 * np_pi) 0) (mkComplex 0 1).

(** [self.a], [self.b]: Python floats (the integers -1 and 0 of [main]
    behave as the floats of the same value in all that follows). *)
Record EllipticCurve : Type := mkCurve { a : float; b : float }.

(** [get_y_values(self, x)] *)
Definition get_y_values {L : Libm} (self : EllipticCurve) (x : scalar)
  : py (list float) :=
  x3 ← scalar_pow x 3;
  let y_squared := x3 + a self * value x + b self in
  if 0 <=? y_squared
  then Ok [PrimFloat.sqrt y_squared; - PrimFloat.sqrt y_squared]
  else Ok [].

(** [discriminant(self)] *)
Definition discriminant {L : Libm} (self : EllipticCurve) : py float :=
  a3 ← float_pow (a self) 3;
  b2 ← float_pow (b self) 2;
  Ok (of_int (-16) * (of_int 4 * a3 + of_int 27 * b2)).

Inductive jvalue : Type :=
| JFloat (x : float)
| JComplex (z : complex128).

(** [j_invariant(self, tau=None)] of [elliptic_curve1.1.py]. *)
Definition j_invariant {L : Libm} (self : EllipticCurve) (tau : option complex128)
  : py jvalue :=
  match tau with
  | Some tau =>
      let q := np_exp (c_mul two_pi_j tau) in
      let j :=
        c_add
          (c_add
             (c_add (c_div (complex_of_int 1) q) (complex_of_int 744))
             (c_mul (complex_of_int 196884) q))
          (c_mul (complex_of_int 21493760) (c_pow q 2)) in
      Ok (JComplex j)
  | None =>
      discriminant ← discriminant self;
      if discriminant =? 0
      then Ok (JFloat infinity)
      else
        a3 ← float_pow (a self) 3;
        j ← py_truediv (of_int (-1728) * (of_int 4 * a3)) discriminant;
        Ok (JFloat j)
  end.

(** [get_elliptic_curve_params(self, tau)] *)
Definition get_elliptic_curve_params {L : Libm} (tau : complex128)
  : float * float :=
  let q := np_exp (c_mul two_pi_j tau) in
  let E4 :=
    c_add (c_add (complex_of_int 1) (c_mul (complex_of_int 240) q))
          (c_mul (complex_of_int 2160) (c_pow q 2)) in
  let E6 :=
    c_sub (c_sub (complex_of_int 1) (c_mul (complex_of_int 504) q))
          (c_mul (complex_of_int 16632) (c_pow q 2)) in
  let a := c_div (c_mul (complex_of_int (-27)) E4)
                 (c_mul (complex_of_int 4) E6) in
  let b := c_div (c_mul (complex_of_int (-27)) (c_sub (c_pow E4 3) (c_pow E6 2)))
                 (c_mul (complex_of_int 4) (c_pow E6 2)) in
  (real a, real b).

(** The body of the inner loop of [plot_modular_form], from the
    parameters on: the value stored in [Z[j,i]]. *)
Definition cell_from_params {L : Libm} (a_tau b_tau : float) : py complex128 :=
  a3 ← float_pow a_tau 3;
  b2 ← float_pow b_tau 2;
  let discriminant := of_int (-16) * (of_int 4 * a3 + of_int 27 * b2) in
  if negb (discriminant =? 0)
  then
    a3 ← float_pow a_tau 3;
    v ← py_truediv (of_int (-1728) * (of_int 4 * a3)) discriminant;
    Ok (mkComplex v 0)
  else Ok (mkComplex infinity 0).

(** The older [elliptic_curve.py]: [tau] is accepted and ignored. *)
Module Legacy.

Definition j_invariant {L : Libm} (self : EllipticCurve)
  (tau : option complex128) : py jvalue :=
  discriminant ← discriminant self;
  if discriminant =? 0
  then Ok (JFloat infinity)
  else
    a3 ← float_pow (a self) 3;
    j ← py_truediv (of_int (-1728) * (of_int 4 * a3)) discriminant;
    Ok (JFloat j).

End Legacy.

(** *** The formulas of the specification, in numpy's complex arithmetic *)

Declare Scope c128_scope.
Delimit Scope c128_scope with c128.
Bind Scope c128_scope with complex128.
Infix "+" := c_add : c128_scope.
Infix "-" := c_sub : c128_scope.
Infix "*" := c_mul : c128_scope.
Infix "/" := c_div : c128_scope.
Infix "^" := c_pow : c128_scope.

(** A real constant as a complex number. *)
Definition cst (x : float) : complex128 := mkComplex x 0.

(** q = exp(2 pi i tau) *)
Definition nome_spec {L : Libm} (tau : complex128) : complex128 :=
  np_exp (mkComplex 0 0x1.921fb54442d18p+2 * tau)%c128.

(** j(tau) ~ 1/q + 744 + 196884 q + 21493760 q^2 *)
Definition j_q_expansion_spec (q : complex128) : complex128 :=
  (cst 1 / q + cst 744 + cst 196884 * q + cst 21493760 * q ^ 2)%c128.

(** E4 = 1 + 240 q + 2160 q^2,  E6 = 1 - 504 q - 16632 q^2 *)
Definition E4_spec (q : complex128) : complex128 :=
  (cst 1 + cst 240 * q + cst 2160 * q ^ 2)%c128.
Definition E6_spec (q : complex128) : complex128 :=
  (cst 1 - cst 504 * q - cst 16632 * q ^ 2)%c128.

(** a = -27 E4 / (4 E6),  b = -27 (E4^3 - E6^2) / (4 E6^2) *)
Definition a_spec (E4 E6 : complex128) : complex128 :=
  (cst (-27) * E4 / (cst 4 * E6))%c128.
Definition b_spec (E4 E6 : complex128) : complex128 :=
  (cst (-27) * (E4 ^ 3 - E6 ^ 2) / (cst 4 * E6 ^ 2))%c128.

(** Delta = -16 (4 a^3 + 27 b^2) and j = -1728 (4 a^3) / Delta, from the
    powers the interpreter computed. *)
Definition Delta_spec (a3 b2 : float) : float := -16 * (4 * a3 + 27 * b2).
Definition j_weierstrass_spec (a3 b2 : float) : float :=
  -1728 * (4 * a3) / Delta_spec a3 b2.

(** *** A reference C library

    [pow] correctly rounded, for a positive integer exponent.  The C
    library's [pow] may differ from it by one unit in the last place, but
    not where the exact power overflows, underflows to zero or is a float
    itself; the closed lemmas below evaluate it only there. *)
Definition to_Z (x : float) : option Z :=
  match Prim2SF x with
  | S754_zero _ => Some 0%Z
  | S754_finite s m e =>
      let k := (2 ^ (- e))%Z in
      if (0 <=? e)%Z then Some ((if s then Z.neg m else Z.pos m) * 2 ^ e)%Z
      else if (Z.pos m mod k =? 0)%Z
           then Some ((if s then Z.neg m else Z.pos m) / k)%Z
           else None
  | _ => None
  end.

Definition pow_rn (x y : float) : float :=
  match to_Z y with
  | Some (Z.pos n) =>
      match Prim2SF x with
      | S754_finite s m e =>
          SF2Prim (binary_round prec emax (s && Z.odd (Z.pos n)) (m ^ n) (e * Z.pos n))
      | S754_zero s => if Z.odd (Z.pos n) then x else 0
      | S754_infinity s => if Z.odd (Z.pos n) then x else infinity
      | S754_nan => nan
      end
  | _ => nan
  end.

(** [np.exp] at the arguments the closed lemmas below use, 2 pi i tau for
    tau = i, 2i and 200i, with the values the C library gives there
    (exp(-2 pi), exp(-4 pi), and 0 by underflow); not tabulated elsewhere. *)
Definition exp_table (z : complex128) : complex128 :=
  if (real z =? -0x1.921fb54442d18p+2) && (imag z =? 0)
  then mkComplex 0x1.e989f5d6dff5ep-10 0
  else if (real z =? -0x1.921fb54442d18p+3) && (imag z =? 0)
  then mkComplex 0x1.d4102bc3f7d50p-19 0
  else if (real z =? -0x1.3a28c59d5433bp+10) && (imag z =? 0)
  then mkComplex 0 0
  else mkComplex nan nan.

Definition reference : Libm := {| libm_pow := pow_rn; np_exp := exp_table |}.

End Binary64.

(* ================================================================== *)
(** ** Auxiliary definitions for the proofs *)

(** On the imaginary axis the nome is real; the series and the parameters
    as real functions of it. *)
Definition e4 (q : R) : R := 1 + 240 * q + 2160 * q ^ 2.
Definition e6 (q : R) : R := 1 - 504 * q - 16632 * q ^ 2.


(** The parameters computed at a point [i y], in terms of the real nome. *)
Definition a_of (q : R) : R := -27 * e4 q / (4 * e6 q).
Definition b_of (q : R) : R := -27 * (e4 q ^ 3 - e6 q ^ 2) / (4 * e6 q ^ 2).


(** The conjugate of a [np.complex128]. *)
Definition npc_conj (z : complex128) : complex128 :=
  mkNpc (real z) (fneg (imag z)).

(** Reading a two-dimensional array. *)
Definition lookup2 {A : Type} (Z : list (list A)) (j i : nat) : option A :=
  Z !! j ≫= (fun row => row !! i).

Definition shape {A : Type} (rows cols : nat) (Z : list (list A)) : Prop :=
  length Z = rows /\ Forall (fun row => length row = cols) Z.

(** The cells written once column [i0] is filled up to row [j0]. *)
Definition written (i0 j0 j i : nat) : bool :=
  (i <? i0)%nat || ((i =? i0)%nat && (j <? j0)%nat).

(** The array [Z] when the loops, started on [Z0], have written exactly
    those cells, storing [f j i] in cell (j, i). *)
Definition filled {A : Type} (rows cols : nat) (f : nat -> nat -> A)
  (Z0 : list (list A)) (i0 j0 : nat) (Z : list (list A)) : Prop :=
  shape rows cols Z
  /\ forall j i, (j < rows)%nat -> (i < cols)%nat ->
       lookup2 Z j i
       = if written i0 j0 j i then Some (f j i) else lookup2 Z0 j i.

(** The sample point of cell (j, i); the default is never used within the
    grid. *)
Definition grid_point (x y : list R) (j i : nat) : C :=
  mkC (default 0 (x !! i)) (default 0 (y !! j)).

(** The line the handler prints on a [ValueError]. *)
Definition error_line : string := "Please enter valid numbers".

(* ================================================================== *)
(** * Properties *)

(* ================================================================== *)
(** * The numerical methods on binary64 *)

Section Binary64_properties.

Local Open Scope float_scope.

(** ** Exact values of floats *)

Lemma to_R_finite (x : float) (s : bool) (m : positive) (e : Z) :
  Prim2SF x = S754_finite s m e ->
  Binary64.to_R x
  = if s then (- (IZR (Z.pos m) * powerRZ 2 e))%R
    else (IZR (Z.pos m) * powerRZ 2 e)%R.
Proof. intros H. unfold Binary64.to_R. now rewrite H. Qed.

Lemma to_R_zero (x : float) (s : bool) :
  Prim2SF x = S754_zero s -> Binary64.to_R x = 0%R.
Proof. intros H. unfold Binary64.to_R. now rewrite H. Qed.

(** Rewrites [to_R x], for a closed finite [x], to its mantissa and
    exponent. *)
Ltac exact_value x :=
  let v := eval vm_compute in (Prim2SF x) in
  match v with
  | S754_finite ?s ?m ?e =>
      rewrite (to_R_finite x s m e) by (vm_compute; reflexivity); cbv iota
  | S754_zero ?s => rewrite (to_R_zero x s) by (vm_compute; reflexivity)
  end.

Lemma mantissa_pos (m : positive) (e : Z) : (0 < IZR (Z.pos m) * powerRZ 2 e)%R.
Proof.
  apply Rmult_lt_0_compat.
  - apply IZR_lt. lia.
  - apply powerRZ_lt. lra.
Qed.

Lemma powerRZ_2_IZR (e : positive) : powerRZ 2 (Z.pos e) = IZR (2 ^ Z.pos e).
Proof. simpl powerRZ. rewrite pow_IZR. now rewrite positive_nat_Z. Qed.

Lemma Delta_IZR (za zb : Z) :
  Delta (IZR za) (IZR zb) = IZR (-16 * (4 * za ^ 3 + 27 * zb ^ 2)).
Proof.
  unfold Delta.
  rewrite !pow_IZR, <- !mult_IZR, <- plus_IZR, <- mult_IZR. reflexivity.
Qed.

(** [x == 0] holds of the two zeros and of nothing else. *)
Lemma eqb_zero_inv (x : float) : (x =? 0) = true -> x = 0 \/ x = -0.
Proof.
  rewrite FloatAxioms.eqb_spec. intros H.
  destruct (Prim2SF x) as [s | s | | s m e] eqn:E.
  - rewrite <- (SF2Prim_Prim2SF x), E.
    destruct s; [right | left]; reflexivity.
  - destruct s; discriminate H.
  - discriminate H.
  - destruct s; discriminate H.
Qed.

Lemma sqrt_of_zero (x : float) :
  (x =? 0) = true ->
  (0 <=? x) = true
  /\ (PrimFloat.sqrt x =? 0) = true /\ (- PrimFloat.sqrt x =? 0) = true.
Proof.
  intros H. destruct (eqb_zero_inv x H) as [-> | ->]; repeat split; reflexivity.
Qed.

(** ** Python's [**] *)

Lemma float_pow_raises {L : Binary64.Libm} (v : float) (n : Z) (e : exn) :
  Binary64.float_pow v n = Raise e -> e = OverflowError.
Proof.
  unfold Binary64.float_pow.
  repeat match goal with
         | |- context [if ?c then _ else _] => destruct c
         end; congruence.
Qed.

Lemma scalar_pow_raises {L : Binary64.Libm}
  (x : Binary64.scalar) (n : Z) (e : exn) :
  Binary64.scalar_pow x n = Raise e ->
  e = OverflowError /\ exists v, x = Binary64.PyFloat v.
Proof.
  destruct x as [v | v]; simpl; [| discriminate].
  intros H. split; [eapply float_pow_raises; exact H | now exists v].
Qed.

Lemma legacy_j_invariant_binary64 {L : Binary64.Libm}
  (self : Binary64.EllipticCurve) (tau : option Binary64.complex128) :
  Binary64.Legacy.j_invariant self tau = Binary64.j_invariant self None.
Proof. reflexivity. Qed.

(** ** C1 *)

Lemma weierstrass_path_binary64 {L : Binary64.Libm} (a b a3 b2 : float) :
  Binary64.float_pow a 3 = Ok a3 ->
  Binary64.float_pow b 2 = Ok b2 ->
  Binary64.discriminant (Binary64.mkCurve a b)
  = Ok (Binary64.Delta_spec a3 b2)
  /\ Binary64.j_invariant (Binary64.mkCurve a b) None
     = Ok (Binary64.JFloat
             (if Binary64.Delta_spec a3 b2 =? 0 then infinity
              else Binary64.j_weierstrass_spec a3 b2)).
Proof.
  intros Ha Hb. set (d := Binary64.Delta_spec a3 b2).
  assert (Hd : Binary64.discriminant (Binary64.mkCurve a b) = Ok d).
  { unfold Binary64.discriminant. cbn [Binary64.a Binary64.b].
    rewrite Ha. cbn [mbind py_bind]. rewrite Hb. reflexivity. }
  split; [exact Hd |].
  unfold Binary64.j_invariant. rewrite Hd. cbn [mbind py_bind].
  destruct (d =? 0) eqn:E; [reflexivity |].
  cbn [Binary64.a]. rewrite Ha. cbn [mbind py_bind].
  unfold Binary64.py_truediv. rewrite E. reflexivity.
Qed.

Lemma weierstrass_path_overflow {L : Binary64.Libm} (a b : float) :
  Binary64.float_pow a 3 = Raise OverflowError
  \/ Binary64.float_pow b 2 = Raise OverflowError ->
  Binary64.discriminant (Binary64.mkCurve a b) = Raise OverflowError
  /\ Binary64.j_invariant (Binary64.mkCurve a b) None = Raise OverflowError.
Proof.
  intros H.
  assert (Hd : Binary64.discriminant (Binary64.mkCurve a b)
               = Raise OverflowError).
  { unfold Binary64.discriminant. cbn [Binary64.a Binary64.b].
    destruct H as [-> | Hb]; [reflexivity |].
    destruct (Binary64.float_pow a 3) as [a3 | e] eqn:Ha.
    - cbn [mbind py_bind]. rewrite Hb. reflexivity.
    - cbn [mbind py_bind]. now rewrite (float_pow_raises _ _ _ Ha). }
  split; [exact Hd |].
  unfold Binary64.j_invariant. now rewrite Hd.
Qed.

(** C1, as the code has it.  With a3 = a**3 and b2 = b**2 as Python
    computes them, [discriminant] returns -16 * (4 * a3 + 27 * b2) and
    [j_invariant] without tau returns -1728 * (4 * a3) / discriminant, every
    operation a binary64 operation in this order, or [float('inf')] when the
    computed discriminant is zero; when one of the powers overflows, both
    methods raise [OverflowError].  The same in both files.  On the fixture
    a = -1, b = 0 the results are exactly 64 and 108, whatever the C
    library. *)
Theorem j_invariant_weierstrass_binary64 :
  (forall (L : Binary64.Libm) (a b a3 b2 : float),
      Binary64.float_pow a 3 = Ok a3 ->
      Binary64.float_pow b 2 = Ok b2 ->
      let j := if Binary64.Delta_spec a3 b2 =? 0 then infinity
               else Binary64.j_weierstrass_spec a3 b2 in
      Binary64.discriminant (Binary64.mkCurve a b)
      = Ok (Binary64.Delta_spec a3 b2)
      /\ Binary64.j_invariant (Binary64.mkCurve a b) None
         = Ok (Binary64.JFloat j)
      /\ forall tau,
          Binary64.Legacy.j_invariant (Binary64.mkCurve a b) tau
          = Ok (Binary64.JFloat j))
  /\ (forall (L : Binary64.Libm) (a b : float),
        Binary64.float_pow a 3 = Raise OverflowError
        \/ Binary64.float_pow b 2 = Raise OverflowError ->
        Binary64.discriminant (Binary64.mkCurve a b) = Raise OverflowError
        /\ Binary64.j_invariant (Binary64.mkCurve a b) None
           = Raise OverflowError
        /\ forall tau,
            Binary64.Legacy.j_invariant (Binary64.mkCurve a b) tau
            = Raise OverflowError)
  /\ (forall L : Binary64.Libm,
        Binary64.discriminant (Binary64.mkCurve (-1) 0) = Ok 64
        /\ Binary64.j_invariant (Binary64.mkCurve (-1) 0) None
           = Ok (Binary64.JFloat 108)
        /\ Binary64.Legacy.j_invariant (Binary64.mkCurve (-1) 0) None
           = Ok (Binary64.JFloat 108)).
Proof.
  split; [| split].
  - intros L a b a3 b2 Ha Hb j.
    destruct (weierstrass_path_binary64 a b a3 b2 Ha Hb) as [Hd Hj].
    split; [exact Hd |]. split; [exact Hj |].
    intros tau. rewrite legacy_j_invariant_binary64. exact Hj.
  - intros L a b H.
    destruct (weierstrass_path_overflow a b H) as [Hd Hj].
    split; [exact Hd |]. split; [exact Hj |].
    intros tau. rewrite legacy_j_invariant_binary64. exact Hj.
  - intros L. repeat split; reflexivity.
Qed.

Lemma j_invariant_weierstrass_binary64_witness :
  Binary64.discriminant (L := Binary64.reference) (Binary64.mkCurve 2 3)
  = Ok (-4400)
  /\ Binary64.j_invariant (L := Binary64.reference) (Binary64.mkCurve 2 3) None
     = Ok (Binary64.JFloat 0x1.9227192271922p+3).
Proof.
  destruct (proj1 j_invariant_weierstrass_binary64 Binary64.reference 2 3 8 9
              ltac:(vm_compute; reflexivity) ltac:(vm_compute; reflexivity))
    as (Hd & Hj & _).
  split; [exact Hd | exact Hj].
Defined.

(** C1 as the specification words it fails on the code.  At a = 1e200,
    b = 0 the real discriminant is not zero, and [j_invariant] raises
    [OverflowError]; at a = 1e-200, b = 0 the real discriminant is not zero
    and the real value -1728 * 4a^3 / Delta is 108, and [j_invariant]
    returns [float('inf')], because a**3 underflows to zero. *)
Lemma weierstrass_value_lost_to_range :
  let big := 0x1.4e718d7d7625ap+664 in
  let tiny := 0x1.87e92154ef7acp-665 in
  (Delta (Binary64.to_R big) (Binary64.to_R 0) <> 0)%R
  /\ Binary64.j_invariant (L := Binary64.reference)
       (Binary64.mkCurve big 0) None
     = Raise OverflowError
  /\ (Delta (Binary64.to_R tiny) (Binary64.to_R 0) <> 0)%R
  /\ j_weierstrass (Binary64.to_R tiny) (Binary64.to_R 0) = 108%R
  /\ Binary64.j_invariant (L := Binary64.reference)
       (Binary64.mkCurve tiny 0) None
     = Ok (Binary64.JFloat infinity).
Proof.
  intros big tiny.
  assert (Hb : (0 < Binary64.to_R big)%R).
  { exact_value big. apply mantissa_pos. }
  assert (Ht : (0 < Binary64.to_R tiny)%R).
  { exact_value tiny. apply mantissa_pos. }
  exact_value 0.
  set (x := Binary64.to_R big) in *. set (t := Binary64.to_R tiny) in *.
  assert (Hx3 : (0 < x ^ 3)%R) by (apply pow_lt; exact Hb).
  assert (Ht3 : (0 < t ^ 3)%R) by (apply pow_lt; exact Ht).
  split; [unfold Delta; nra |].
  split; [vm_compute; reflexivity |].
  split; [unfold Delta; nra |].
  split; [| vm_compute; reflexivity].
  clearbody x t. clear big tiny.
  unfold j_weierstrass, Delta. field. nra.
Qed.

(** ** C4 *)

(** C4, as the code has it.  Whenever the discriminant the code computes is
    zero (either zero of binary64), [j_invariant] on the Weierstrass path
    raises nothing and returns the sentinel [float('inf')], in both
    files. *)
Theorem j_invariant_zero_discriminant_sentinel {L : Binary64.Libm}
  (a b d : float) :
  Binary64.discriminant (Binary64.mkCurve a b) = Ok d ->
  (d =? 0) = true ->
  Binary64.j_invariant (Binary64.mkCurve a b) None
  = Ok (Binary64.JFloat infinity)
  /\ forall tau,
      Binary64.Legacy.j_invariant (Binary64.mkCurve a b) tau
      = Ok (Binary64.JFloat infinity).
Proof.
  intros Hd H0.
  assert (Hj : Binary64.j_invariant (Binary64.mkCurve a b) None
               = Ok (Binary64.JFloat infinity)).
  { unfold Binary64.j_invariant. rewrite Hd. cbn [mbind py_bind].
    now rewrite H0. }
  split; [exact Hj |].
  intros tau. rewrite legacy_j_invariant_binary64. exact Hj.
Qed.

Lemma j_invariant_zero_discriminant_sentinel_witness :
  Binary64.discriminant (L := Binary64.reference) (Binary64.mkCurve 0 0)
  = Ok (-0)
  /\ Binary64.j_invariant (L := Binary64.reference) (Binary64.mkCurve 0 0) None
     = Ok (Binary64.JFloat infinity).
Proof.
  assert (Hd : Binary64.discriminant (L := Binary64.reference)
                 (Binary64.mkCurve 0 0) = Ok (-0))
    by (vm_compute; reflexivity).
  split; [exact Hd |].
  exact (proj1 (j_invariant_zero_discriminant_sentinel
                  (L := Binary64.reference) 0 0 (-0) Hd eq_refl)).
Defined.

(** C4 as the specification words it fails on the code.  For
    a = -3 * 2^466 and b = 2^700 the real discriminant is exactly zero, and
    [j_invariant] raises [OverflowError] instead of returning the
    sentinel: a**3 overflows before the discriminant is formed. *)
Lemma singular_curve_overflows :
  let a := -0x1.8p+467 in
  let b := 0x1p+700 in
  Delta (Binary64.to_R a) (Binary64.to_R b) = 0%R
  /\ Binary64.j_invariant (L := Binary64.reference) (Binary64.mkCurve a b) None
     = Raise OverflowError.
Proof.
  intros a b. split; [| vm_compute; reflexivity].
  exact_value a. exact_value b.
  rewrite !powerRZ_2_IZR, <- !mult_IZR, <- opp_IZR, Delta_IZR.
  apply (f_equal IZR). vm_compute. reflexivity.
Qed.

(** ** C6 *)

(** C6, as the code has it.  With y2 the binary64 value of
    x**3 + a*x + b: when [y2 >= 0] holds of that float, [get_y_values]
    returns [sqrt y2] and [-sqrt y2] in this order, two elements also when
    y2 is a zero, and then both are zeros; when the test fails (y2
    negative, or NaN) it returns the empty list.  The only exception is the
    [OverflowError] of x**3, for a Python float x; a numpy scalar raises
    nothing. *)
Theorem get_y_values_binary64 {L : Binary64.Libm}
  (self : Binary64.EllipticCurve) (x : Binary64.scalar) :
  (forall x3 : float,
      Binary64.scalar_pow x 3 = Ok x3 ->
      let y_squared :=
        x3 + Binary64.a self * Binary64.value x + Binary64.b self in
      ((0 <=? y_squared) = true ->
         Binary64.get_y_values self x
         = Ok [PrimFloat.sqrt y_squared; - PrimFloat.sqrt y_squared])
      /\ ((y_squared =? 0) = true ->
            Binary64.get_y_values self x
            = Ok [PrimFloat.sqrt y_squared; - PrimFloat.sqrt y_squared]
            /\ (PrimFloat.sqrt y_squared =? 0) = true
            /\ (- PrimFloat.sqrt y_squared =? 0) = true)
      /\ ((0 <=? y_squared) = false ->
            Binary64.get_y_values self x = Ok []))
  /\ (forall e : exn,
        Binary64.scalar_pow x 3 = Raise e ->
        Binary64.get_y_values self x = Raise OverflowError
        /\ exists v, x = Binary64.PyFloat v).
Proof.
  split.
  - intros x3 Hx y_squared.
    assert (E : Binary64.get_y_values self x
                = if 0 <=? y_squared
                  then Ok [PrimFloat.sqrt y_squared;
                           - PrimFloat.sqrt y_squared]
                  else Ok []).
    { unfold Binary64.get_y_values. rewrite Hx. reflexivity. }
    split; [| split].
    + intros H. now rewrite E, H.
    + intros H. destruct (sqrt_of_zero _ H) as (H0 & H1 & H2).
      split; [now rewrite E, H0 | split; assumption].
    + intros H. now rewrite E, H.
  - intros e H. destruct (scalar_pow_raises _ _ _ H) as [-> Hv].
    split; [| exact Hv]. unfold Binary64.get_y_values. now rewrite H.
Qed.

Lemma get_y_values_binary64_witness :
  let fixture := Binary64.mkCurve (-1) 0 in
  Binary64.get_y_values (L := Binary64.reference) fixture (Binary64.NpFloat64 2)
  = Ok [0x1.3988e1409212ep+1; -0x1.3988e1409212ep+1]
  /\ Binary64.get_y_values (L := Binary64.reference) fixture
       (Binary64.NpFloat64 0)
     = Ok [0; -0]
  /\ Binary64.get_y_values (L := Binary64.reference) fixture
       (Binary64.NpFloat64 (-2))
     = Ok [].
Proof.
  intros fixture.
  split; [| split].
  - exact (proj1 (proj1 (get_y_values_binary64 (L := Binary64.reference)
                           fixture (Binary64.NpFloat64 2)) 8 eq_refl) eq_refl).
  - exact (proj1 (proj1 (proj2 (proj1
             (get_y_values_binary64 (L := Binary64.reference)
                fixture (Binary64.NpFloat64 0)) 0 eq_refl)) eq_refl)).
  - exact (proj2 (proj2 (proj1
             (get_y_values_binary64 (L := Binary64.reference)
                fixture (Binary64.NpFloat64 (-2))) (-8) eq_refl)) eq_refl).
Defined.

(** C6 as the specification words it fails on the code.  On the curve
    a = b = 0 at x = -1e-200 the real x^3 + ax + b is negative, and
    [get_y_values] returns two values, both zero: x**3 underflows to a
    zero, and [>= 0] holds of it.  At the Python float x = 1e200 the real
    value is positive and the call raises [OverflowError]. *)
Lemma get_y_values_sign_lost :
  let x := -0x1.87e92154ef7acp-665 in
  let big := 0x1.4e718d7d7625ap+664 in
  (Binary64.to_R x ^ 3 + Binary64.to_R 0 * Binary64.to_R x + Binary64.to_R 0
   < 0)%R
  /\ Binary64.get_y_values (L := Binary64.reference) (Binary64.mkCurve 0 0)
       (Binary64.NpFloat64 x)
     = Ok [0; -0]
  /\ (0 < Binary64.to_R big ^ 3 + Binary64.to_R 0 * Binary64.to_R big
          + Binary64.to_R 0)%R
  /\ Binary64.get_y_values (L := Binary64.reference) (Binary64.mkCurve 0 0)
       (Binary64.PyFloat big)
     = Raise OverflowError.
Proof.
  intros x big.
  assert (Hx : (Binary64.to_R x < 0)%R).
  { exact_value x.
    match goal with
    | |- (- ?v < 0)%R => assert (0 < v)%R by apply mantissa_pos
    end.
    lra. }
  assert (Hb : (0 < Binary64.to_R big)%R).
  { exact_value big. apply mantissa_pos. }
  exact_value 0.
  split; [| split; [vm_compute; reflexivity | split; [| vm_compute; reflexivity]]].
  - set (r := Binary64.to_R x) in *. clearbody r.
    assert (0 < (- r) ^ 3)%R by (apply pow_lt; lra). nra.
  - set (r := Binary64.to_R big) in *. clearbody r.
    assert (0 < r ^ 3)%R by (apply pow_lt; lra). nra.
Qed.

(** ** C3 *)

Lemma q_expansion_path_binary64 {L : Binary64.Libm}
  (self : Binary64.EllipticCurve) (tau : Binary64.complex128) :
  Binary64.j_invariant self (Some tau)
  = Ok (Binary64.JComplex
          (Binary64.j_q_expansion_spec (Binary64.nome_spec tau))).
Proof. reflexivity. Qed.

(** C3.  For every complex tau, every stored curve and every C library,
    [j_invariant(tau)] of [elliptic_curve1.1.py] raises nothing and returns
    1/q + 744 + 196884 q + 21493760 q^2 for q = np.exp(2 pi i tau),
    evaluated in numpy's complex arithmetic from left to right. *)
Theorem j_invariant_q_expansion_binary64 {L : Binary64.Libm}
  (self : Binary64.EllipticCurve) (tau : Binary64.complex128) :
  let q := Binary64.np_exp
             (Binary64.c_mul (Binary64.mkComplex 0 0x1.921fb54442d18p+2) tau) in
  Binary64.nome_spec tau = q
  /\ Binary64.j_invariant self (Some tau)
     = Ok (Binary64.JComplex (Binary64.j_q_expansion_spec q)).
Proof. split; reflexivity. Qed.

(** ** C2 *)

(** C2.  For every complex tau and every C library,
    [get_elliptic_curve_params(tau)] returns the real parts of
    a = -27 E4 / (4 E6) and b = -27 (E4^3 - E6^2) / (4 E6^2), where
    E4 = 1 + 240 q + 2160 q^2, E6 = 1 - 504 q - 16632 q^2 and
    q = np.exp(2 pi i tau), evaluated in numpy's complex arithmetic; the
    imaginary parts are dropped. *)
Theorem get_elliptic_curve_params_binary64 {L : Binary64.Libm}
  (tau : Binary64.complex128) :
  let q := Binary64.np_exp
             (Binary64.c_mul (Binary64.mkComplex 0 0x1.921fb54442d18p+2) tau) in
  let E4 := Binary64.E4_spec q in
  let E6 := Binary64.E6_spec q in
  Binary64.get_elliptic_curve_params tau
  = (Binary64.real (Binary64.a_spec E4 E6),
     Binary64.real (Binary64.b_spec E4 E6)).
Proof. reflexivity. Qed.

End Binary64_properties.

(* ================================================================== *)
(** * The code around the numerical methods, floats idealised as reals *)

(** ** Arithmetic on finite floats is the arithmetic of the reals *)

Lemma Rsign_pos r : 0 < r -> Rsign r = Pos.
Proof.
  intros H. unfold Rsign.
  destruct (total_order_T r 0) as [[Hlt | Heq] | Hgt]; [lra | lra | reflexivity].
Qed.

Lemma Rsign_nonzero r : r <> 0 -> Rsign r <> Zero.
Proof.
  intros H. unfold Rsign.
  destruct (total_order_T r 0) as [[Hlt | Heq] | Hgt]; congruence.
Qed.


Lemma feq0_Fin_false r : r <> 0 -> feq0 (Fin r) = false.
Proof. intros H. simpl. destruct (Req_dec_T r 0); congruence. Qed.

Lemma fpow_Fin r n : fpow (Fin r) n = Fin (r ^ n).
Proof. induction n as [| n IH]; simpl; [reflexivity | now rewrite IH]. Qed.

Lemma fdiv_ieee_Fin r s : s <> 0 -> fdiv_ieee (Fin r) (Fin s) = Fin (r / s).
Proof.
  intros H. simpl. pose proof (Rsign_nonzero s H).
  destruct (Rsign s); congruence.
Qed.

Lemma py_truediv_Fin r s :
  s <> 0 -> py_truediv (Fin r) (Fin s) = Ok (Fin (r / s)).
Proof.
  intros H. unfold py_truediv.
  now rewrite feq0_Fin_false, fdiv_ieee_Fin.
Qed.

Lemma discriminant_Fin (x y : R) :
  discriminant (mkCurve (Fin x) (Fin y)) = Fin (Delta x y).
Proof. unfold discriminant, Delta. simpl a; simpl b. now rewrite !fpow_Fin. Qed.

(** The Weierstrass branch on finite parameters, in both files. *)
Lemma weierstrass_path_regular (x y : R) :
  Delta x y <> 0 ->
  j_invariant (mkCurve (Fin x) (Fin y)) None
  = Ok (JFloat (Fin (j_weierstrass x y))).
Proof.
  intros H. unfold j_invariant.
  rewrite discriminant_Fin, feq0_Fin_false by assumption.
  simpl a. rewrite fpow_Fin. simpl fmul.
  rewrite py_truediv_Fin by assumption. reflexivity.
Qed.

(** [elliptic_curve.py] has only the Weierstrass branch: whatever [tau] it
    is given, it answers as [elliptic_curve1.1.py] does without [tau]. *)
Lemma legacy_j_invariant_ignores_tau self tau :
  Legacy.j_invariant self tau = j_invariant self None.
Proof. reflexivity. Qed.

(** ** Complex arithmetic *)

Lemma C_eq (z w : C) : re z = re w -> im z = im w -> z = w.
Proof. destruct z, w; simpl; intros -> ->; reflexivity. Qed.

Lemma C0_iff (z : C) : z = C0 <-> re z = 0 /\ im z = 0.
Proof.
  split.
  - intros ->. split; reflexivity.
  - intros [H1 H2]. now apply C_eq.
Qed.

Lemma Cscale_nonzero (r : R) (z : C) : r <> 0 -> z <> C0 -> (RtoC r * z)%C <> C0.
Proof.
  intros Hr Hz E. apply Hz. apply C0_iff in E. simpl in E. destruct E as [E1 E2].
  apply C0_iff. split; nra.
Qed.

Lemma Csqr_nonzero (z : C) : z <> C0 -> (z ^ 2)%C <> C0.
Proof.
  intros Hz E. apply Hz. apply C0_iff in E. simpl in E. destruct E as [E1 E2].
  assert (Hxy : re z * im z = 0) by lra.
  apply C0_iff.
  destruct (Rmult_integral _ _ Hxy) as [Hx | Hy].
  - rewrite Hx in *. split; [reflexivity | nra].
  - rewrite Hy in *. split; [nra | reflexivity].
Qed.

Lemma Cexp_nonzero (z : C) : Cexp z <> C0.
Proof.
  intros E. apply C0_iff in E. simpl in E. destruct E as [E1 E2].
  pose proof (exp_pos (re z)) as He.
  pose proof (sin2_cos2 (im z)) as Hsc. unfold Rsqr in Hsc.
  assert (cos (im z) = 0) by nra.
  assert (sin (im z) = 0) by nra.
  nra.
Qed.

(** The nome never vanishes. *)
Lemma nome_nonzero (tau : C) : nome tau <> C0.
Proof. apply Cexp_nonzero. Qed.

Lemma np_div_regular (z w : C) : w <> C0 -> np_div z w = of_C (Cdiv z w).
Proof.
  intros H. unfold np_div. destruct (C_eq_dec w C0); [contradiction | reflexivity].
Qed.

Lemma npc_add_of_C (z w : C) : npc_add (of_C z) (of_C w) = of_C (z + w)%C.
Proof. reflexivity. Qed.

(** ** The q-expansion path *)

Lemma q_expansion_path (self : EllipticCurve) (tau : C) :
  j_invariant self (Some tau)
  = Ok (JComplex (of_C (j_q_expansion (nome tau)))).
Proof.
  unfold j_invariant, j_q_expansion.
  rewrite np_div_regular by apply nome_nonzero.
  now rewrite !npc_add_of_C.
Qed.

(** ** C10 *)

(** C10.  With tau supplied, the value of [j_invariant] does not depend
    on the stored curve: any two states give the same result. *)
Theorem j_invariant_tau_ignores_state (s1 s2 : EllipticCurve) (tau : C) :
  j_invariant s1 (Some tau) = j_invariant s2 (Some tau).
Proof. reflexivity. Qed.

(** ** The parameters where E6 does not vanish *)

Lemma params_regular (tau : C) :
  E6_of (nome tau) <> C0 ->
  get_elliptic_curve_params tau
  = (Fin (fst (curve_params_spec tau)), Fin (snd (curve_params_spec tau))).
Proof.
  intros H6. unfold get_elliptic_curve_params, curve_params_spec.
  rewrite !np_div_regular.
  - reflexivity.
  - apply Cscale_nonzero; [lra | now apply Csqr_nonzero].
  - apply Cscale_nonzero; [lra | assumption].
Qed.

(** ** On the imaginary axis everything is real *)

Lemma RtoC_add (r s : R) : (RtoC r + RtoC s)%C = RtoC (r + s).
Proof. apply C_eq; simpl; lra. Qed.

Lemma RtoC_sub (r s : R) : (RtoC r - RtoC s)%C = RtoC (r - s).
Proof. apply C_eq; simpl; lra. Qed.

Lemma RtoC_mul (r s : R) : (RtoC r * RtoC s)%C = RtoC (r * s).
Proof. apply C_eq; simpl; lra. Qed.

Lemma RtoC_pow (r : R) (n : nat) : (RtoC r ^ n)%C = RtoC (r ^ n).
Proof.
  induction n as [| n IH]; [reflexivity |].
  simpl Cpow. now rewrite IH, RtoC_mul.
Qed.

Lemma RtoC_div (r s : R) : s <> 0 -> Cdiv (RtoC r) (RtoC s) = RtoC (r / s).
Proof.
  intros H. apply C_eq; unfold Cdiv, Cnorm2; simpl; field; nra.
Qed.

Lemma RtoC_nonzero (r : R) : r <> 0 -> RtoC r <> C0.
Proof. intros H E. apply H. now injection E. Qed.

Lemma nome_imaginary (y : R) : nome (mkC 0 y) = RtoC (exp (- (2 * PI * y))).
Proof.
  unfold nome, Cexp. apply C_eq; simpl.
  - replace ((2 * PI * 0 - 0 * 1) * 0 - (2 * PI * 1 + 0 * 0) * y)
      with (- (2 * PI * y)) by ring.
    replace ((2 * PI * 0 - 0 * 1) * y + (2 * PI * 1 + 0 * 0) * 0)
      with 0 by ring.
    rewrite cos_0. ring.
  - replace ((2 * PI * 0 - 0 * 1) * y + (2 * PI * 1 + 0 * 0) * 0)
      with 0 by ring.
    rewrite sin_0. ring.
Qed.

Lemma E4_of_real (q : R) : E4_of (RtoC q) = RtoC (e4 q).
Proof.
  unfold E4_of, e4. now rewrite RtoC_pow, !RtoC_mul, !RtoC_add.
Qed.

Lemma E6_of_real (q : R) : E6_of (RtoC q) = RtoC (e6 q).
Proof.
  unfold E6_of, e6. now rewrite RtoC_pow, !RtoC_mul, !RtoC_sub.
Qed.

Lemma params_on_imaginary_axis (y : R) :
  let q := exp (- (2 * PI * y)) in
  e6 q <> 0 ->
  get_elliptic_curve_params (mkC 0 y) = (Fin (a_of q), Fin (b_of q)).
Proof.
  intros q H6.
  assert (H6' : E6_of (nome (mkC 0 y)) <> C0).
  { rewrite nome_imaginary, E6_of_real. now apply RtoC_nonzero. }
  rewrite (params_regular _ H6').
  unfold curve_params_spec. rewrite nome_imaginary. fold q.
  rewrite E4_of_real, E6_of_real, !RtoC_pow, RtoC_sub, !RtoC_mul.
  rewrite !RtoC_div by (try apply Rmult_integral_contrapositive_currified;
                        try apply pow_nonzero; lra || assumption).
  reflexivity.
Qed.

Lemma q_expansion_on_imaginary_axis (self : EllipticCurve) (y : R) :
  let q := exp (- (2 * PI * y)) in
  j_invariant self (Some (mkC 0 y))
  = Ok (JComplex
          (of_C (RtoC (1 / q + 744 + 196884 * q + 21493760 * q ^ 2)))).
Proof.
  intros q. assert (Hq : q <> 0) by (pose proof (exp_pos (- (2 * PI * y))); unfold q; lra).
  rewrite q_expansion_path.
  rewrite nome_imaginary. fold q. unfold j_q_expansion.
  rewrite RtoC_div by assumption.
  now rewrite RtoC_pow, !RtoC_mul, !RtoC_add.
Qed.

(** ** Numerical bounds *)

Lemma exp_12_lower : 4096 < exp 12.
Proof.
  assert (H1 : 2 < exp 1) by (pose proof (exp_ineq1 1); lra).
  assert (H2 : exp 2 = exp 1 * exp 1) by (rewrite <- exp_plus; f_equal; lra).
  assert (H4 : exp 4 = exp 2 * exp 2) by (rewrite <- exp_plus; f_equal; lra).
  assert (H8 : exp 8 = exp 4 * exp 4) by (rewrite <- exp_plus; f_equal; lra).
  assert (H12 : exp 12 = exp 8 * exp 4) by (rewrite <- exp_plus; f_equal; lra).
  assert (4 < exp 2) by nra.
  assert (16 < exp 4) by nra.
  assert (256 < exp 8) by nra.
  nra.
Qed.

Lemma PI_gt_3 : 3 < PI.
Proof. pose proof PI2_3_2. lra. Qed.

(** For Im(tau) >= 2 the nome is below 1/4096. *)
Lemma nome_small (y : R) :
  2 <= y ->
  let q := exp (- (2 * PI * y)) in 0 < q /\ q < 1 / 4096 /\ 4096 < 1 / q.
Proof.
  intros Hy q. pose proof PI_gt_3 as Hpi.
  assert (Hbig : 4096 < exp (2 * PI * y)).
  { apply Rlt_le_trans with (exp 12); [apply exp_12_lower |].
    destruct (Req_dec_T 12 (2 * PI * y)) as [<- | Hne]; [lra |].
    left. apply exp_increasing. nra. }
  assert (Hq : q = / exp (2 * PI * y)) by (unfold q; apply exp_Ropp).
  assert (Hpos : 0 < q) by apply exp_pos.
  assert (Hprod : q * exp (2 * PI * y) = 1).
  { rewrite Hq. field. pose proof (exp_pos (2 * PI * y)). lra. }
  split; [exact Hpos |]. split.
  - nra.
  - replace (1 / q) with (exp (2 * PI * y)); [exact Hbig |].
    rewrite Hq. field. pose proof (exp_pos (2 * PI * y)). lra.
Qed.

Lemma e4_e6_bounds (q : R) :
  0 < q -> q < 1 / 4096 ->
  1 < e4 q /\ e4 q < 106 / 100 /\ 87 / 100 < e6 q /\ e6 q < 1.
Proof. intros H0 H1. unfold e4, e6. repeat split; nra. Qed.

Lemma params_bounds (q : R) :
  0 < q -> q < 1 / 4096 ->
  - (83 / 10) < a_of q /\ a_of q < - (27 / 4)
  /\ -4 < b_of q /\ b_of q < 0.
Proof.
  intros H0 H1.
  destruct (e4_e6_bounds q H0 H1) as (H4l & H4u & H6l & H6u).
  assert (Ha : a_of q * (4 * e6 q) = -27 * e4 q).
  { unfold a_of. field. lra. }
  assert (Hb : b_of q * (4 * e6 q ^ 2) = -27 * (e4 q ^ 3 - e6 q ^ 2)).
  { unfold b_of. field. lra. }
  set (A := a_of q) in *. set (B := b_of q) in *.
  set (u := e4 q) in *. set (v := e6 q) in *.
  assert (Hv2l : 7569 / 10000 < v ^ 2) by nra.
  assert (Hv2u : v ^ 2 < 1) by nra.
  assert (Hu2 : 1 < u * u /\ u * u < 11236 / 10000) by nra.
  assert (Hu3 : 1 < u ^ 3 /\ u ^ 3 < 1191016 / 1000000) by nra.
  repeat split; nra.
Qed.

Lemma weierstrass_of_params_bounded (q : R) :
  0 < q -> q < 1 / 4096 ->
  0 < Delta (a_of q) (b_of q)
  /\ 108 <= j_weierstrass (a_of q) (b_of q)
  /\ j_weierstrass (a_of q) (b_of q) < 200.
Proof.
  intros H0 H1.
  destruct (params_bounds q H0 H1) as (Hal & Hau & Hbl & Hbu).
  set (A := a_of q) in *. set (B := b_of q) in *.
  assert (HA2 : 729 / 16 < A * A /\ A * A < 6889 / 100) by nra.
  assert (HA3 : - 572 < A ^ 3 /\ A ^ 3 < - 307) by nra.
  assert (HB2 : 0 < B ^ 2 /\ B ^ 2 < 16) by nra.
  assert (HD : 0 < Delta A B) by (unfold Delta; nra).
  split; [exact HD |].
  assert (Hj : j_weierstrass A B * Delta A B = -1728 * (4 * A ^ 3)).
  { unfold j_weierstrass. field. lra. }
  set (J := j_weierstrass A B) in *.
  assert (HDv : Delta A B = -16 * (4 * A ^ 3 + 27 * B ^ 2)) by reflexivity.
  set (D := Delta A B) in *.
  split; nra.
Qed.

(** ** C9 *)

(** C9 fails on the code.  At tau = i y with y >= 2 (so at tau = 2i) the
    q-expansion path returns a real value above 4096, while the
    Weierstrass path applied to [get_elliptic_curve_params(tau)] returns a
    value between 108 and 200: the two paths do not agree, and the gap
    grows with Im(tau). *)
Theorem round_trip_paths_disagree (self : EllipticCurve) (y : R) :
  2 <= y ->
  exists jt pa pb jw : R,
    j_invariant self (Some (mkC 0 y)) = Ok (JComplex (of_C (RtoC jt)))
    /\ get_elliptic_curve_params (mkC 0 y) = (Fin pa, Fin pb)
    /\ j_invariant (mkCurve (Fin pa) (Fin pb)) None = Ok (JFloat (Fin jw))
    /\ 4096 < jt
    /\ 108 <= jw < 200.
Proof.
  intros Hy.
  destruct (nome_small y Hy) as (H0 & H1 & Hinv).
  set (q := exp (- (2 * PI * y))) in *.
  destruct (e4_e6_bounds q H0 H1) as (_ & _ & H6 & _).
  destruct (weierstrass_of_params_bounded q H0 H1) as (HD & Hl & Hu).
  exists (1 / q + 744 + 196884 * q + 21493760 * q ^ 2),
    (a_of q), (b_of q), (j_weierstrass (a_of q) (b_of q)).
  split; [apply q_expansion_on_imaginary_axis |].
  split; [apply params_on_imaginary_axis; fold q; lra |].
  split; [apply weierstrass_path_regular; lra |].
  split; [| split; assumption].
  assert (0 < q ^ 2) by nra. lra.
Qed.

Lemma round_trip_paths_disagree_witness :
  exists jt pa pb jw : R,
    j_invariant fixture (Some (mkC 0 2)) = Ok (JComplex (of_C (RtoC jt)))
    /\ get_elliptic_curve_params (mkC 0 2) = (Fin pa, Fin pb)
    /\ j_invariant (mkCurve (Fin pa) (Fin pb)) None = Ok (JFloat (Fin jw))
    /\ 4096 < jt
    /\ 108 <= jw < 200.
Proof. apply (round_trip_paths_disagree fixture 2). lra. Defined.

(** ** Filling a grid cell by cell *)

Lemma shape_row {A : Type} (rows cols : nat) (Z : list (list A)) j row :
  shape rows cols Z -> Z !! j = Some row -> length row = cols.
Proof.
  intros [_ HF] Hj. rewrite Forall_lookup in HF. exact (HF j row Hj).
Qed.

Lemma setitem2_spec {A : Type} (rows cols : nat) (Z : list (list A)) j i v :
  shape rows cols Z -> (j < rows)%nat -> (i < cols)%nat ->
  exists Z',
    setitem2 Z j i v = Ok Z'
    /\ shape rows cols Z'
    /\ forall j' i',
        lookup2 Z' j' i'
        = if decide (j' = j /\ i' = i) then Some v else lookup2 Z j' i'.
Proof.
  intros HS Hj Hi. pose proof HS as [HL HF].
  destruct (lookup_lt_is_Some_2 Z j) as [row Hrow]; [lia |].
  pose proof (shape_row _ _ _ _ _ HS Hrow) as Hlen.
  exists (<[j := <[i := v]> row]> Z). unfold setitem2. rewrite Hrow.
  destruct (decide (i < length row)%nat) as [_ | Hn]; [| lia].
  split; [reflexivity |]. split.
  - split; [now rewrite length_insert |].
    apply Forall_insert; [assumption | now rewrite length_insert].
  - intros j' i'. unfold lookup2.
    destruct (decide (j' = j)) as [-> | Hne].
    + rewrite list_lookup_insert_eq by lia. simpl. rewrite Hrow. simpl.
      destruct (decide (i' = i)) as [-> | Hne'].
      * rewrite list_lookup_insert_eq by lia.
        destruct (decide (j = j /\ i = i)) as [_ | Hn]; [reflexivity | tauto].
      * rewrite list_lookup_insert_ne by congruence.
        destruct (decide (j = j /\ i' = i)) as [[_ Hc] | _]; [congruence | reflexivity].
    + rewrite list_lookup_insert_ne by congruence.
      destruct (decide (j' = j /\ i' = i)) as [[Hc _] | _]; [congruence | reflexivity].
Qed.

Section Fill.
Context {A : Type}.
Variables (rows cols : nat).
Variable f : nat -> nat -> A.
Variable step : nat -> nat -> list (list A) -> py (list (list A)).
Variable Z0 : list (list A).

Local Abbreviation filled := (filled rows cols f Z0).

Hypothesis step_stores :
  forall i j Z, (j < rows)%nat -> (i < cols)%nat ->
                step i j Z = setitem2 Z j i (f j i).

Lemma filled_step i j Z :
  (j < rows)%nat -> (i < cols)%nat -> filled i j Z ->
  exists Z', step i j Z = Ok Z' /\ filled i (S j) Z'.
Proof.
  intros Hj Hi [HS HV].
  destruct (setitem2_spec rows cols Z j i (f j i) HS Hj Hi)
    as (Z' & HZ' & HS' & HV').
  exists Z'. split; [now rewrite step_stores |].
  split; [assumption |].
  intros j' i' Hj' Hi'. rewrite HV', (HV j' i' Hj' Hi'). unfold written.
  destruct (decide (j' = j /\ i' = i)) as [[-> ->] | Hne].
  - rewrite Nat.eqb_refl. replace (j <? S j)%nat with true
      by (symmetry; apply Nat.ltb_lt; lia).
    now rewrite orb_true_r.
  - destruct (Nat.eqb_spec i' i) as [-> | Hi''].
    + assert (j' <> j) by tauto.
      replace (j' <? S j)%nat with (j' <? j)%nat; [reflexivity |].
      destruct (Nat.ltb_spec j' j), (Nat.ltb_spec j' (S j)); lia || reflexivity.
    + reflexivity.
Qed.

Lemma inner_loop i n : forall j0 Z,
  (i < cols)%nat -> (j0 + n <= rows)%nat -> filled i j0 Z ->
  exists Z', for_in (seq j0 n) (step i) Z = Ok Z' /\ filled i (j0 + n) Z'.
Proof.
  induction n as [| n IH]; intros j0 Z Hi Hn HF.
  - exists Z. rewrite Nat.add_0_r. split; [reflexivity | assumption].
  - destruct (filled_step i j0 Z) as (Z1 & E1 & HF1); [lia | lia | assumption |].
    destruct (IH (S j0) Z1) as (Z' & E' & HF'); [lia | lia | assumption |].
    exists Z'. simpl. rewrite E1. simpl.
    replace (j0 + S n)%nat with (S j0 + n)%nat by lia. now split.
Qed.

Lemma filled_next_column i Z : filled i rows Z -> filled (S i) 0 Z.
Proof.
  intros [HS HV]. split; [assumption |].
  intros j i' Hj Hi'. rewrite (HV j i' Hj Hi'). unfold written.
  replace (j <? rows)%nat with true by (symmetry; apply Nat.ltb_lt; lia).
  replace (j <? 0)%nat with false by (symmetry; apply Nat.ltb_ge; lia).
  rewrite andb_true_r, andb_false_r, orb_false_r.
  destruct (Nat.ltb_spec i' i), (Nat.eqb_spec i' i), (Nat.ltb_spec i' (S i));
    lia || reflexivity.
Qed.

Lemma outer_loop n : forall i0 Z,
  (i0 + n <= cols)%nat -> filled i0 0 Z ->
  exists Z',
    for_in (seq i0 n) (fun i Z => for_in (seq 0 rows) (step i) Z) Z = Ok Z'
    /\ filled (i0 + n) 0 Z'.
Proof.
  induction n as [| n IH]; intros i0 Z Hn HF.
  - exists Z. rewrite Nat.add_0_r. split; [reflexivity | assumption].
  - destruct (inner_loop i0 rows 0 Z) as (Z1 & E1 & HF1); [lia | lia | assumption |].
    apply filled_next_column in HF1.
    destruct (IH (S i0) Z1) as (Z' & E' & HF'); [lia | assumption |].
    exists Z'. cbn [seq for_in]. rewrite E1. simpl.
    replace (i0 + S n)%nat with (S i0 + n)%nat by lia. now split.
Qed.

(** Both loops run to completion, keep the shape of the array, and leave
    in every cell the value computed for it. *)
Lemma nested_loops_fill :
  shape rows cols Z0 ->
  exists Z,
    for_range cols (fun i Z => for_range rows (step i) Z) Z0 = Ok Z
    /\ shape rows cols Z
    /\ forall j i, (j < rows)%nat -> (i < cols)%nat ->
                   lookup2 Z j i = Some (f j i).
Proof.
  intros HS. unfold for_range.
  destruct (outer_loop cols 0 Z0) as (Z & E & [HS' HV]); [lia | |].
  - split; [assumption |]. intros j i _ _. unfold written. simpl.
    now rewrite andb_false_r.
  - exists Z. split; [exact E |]. split; [assumption |].
    intros j i Hj Hi. rewrite (HV j i Hj Hi). unfold written. simpl.
    replace (i <? cols)%nat with true by (symmetry; apply Nat.ltb_lt; lia).
    reflexivity.
Qed.

End Fill.

(** ** C8 *)

Lemma cell_from_params_total (a_tau b_tau : pyfloat) :
  exists v, cell_from_params a_tau b_tau = Ok v.
Proof.
  unfold cell_from_params.
  set (d := fmul (Fin (-16)) _).
  destruct (fne0 d) eqn:Hd; [| eexists; reflexivity].
  unfold py_truediv. unfold fne0 in Hd. apply negb_true_iff in Hd.
  rewrite Hd. eexists; reflexivity.
Qed.

Lemma cell_value_total (tau : C) : exists v, cell_value tau = Ok v.
Proof.
  unfold cell_value. destruct (get_elliptic_curve_params tau) as [pa pb].
  apply cell_from_params_total.
Qed.

Lemma cell_value_or_nan (tau : C) : cell_value tau = Ok (cell_or_nan tau).
Proof.
  unfold cell_or_nan. destruct (cell_value_total tau) as [v ->]. reflexivity.
Qed.


Lemma tau_point (x y : R) : (RtoC x + Ci * RtoC y)%C = mkC x y.
Proof. apply C_eq; simpl; lra. Qed.

Lemma meshgrid_shape (x y : list R) :
  shape (length y) (length x) (zeros_like (fst (meshgrid x y))).
Proof.
  unfold zeros_like, meshgrid, shape. simpl. split.
  - now rewrite !length_fmap.
  - apply Forall_fmap, Forall_fmap, Forall_forall. intros yj Hyj. simpl.
    now rewrite length_fmap.
Qed.

Lemma complex_grid_lookup (x y : list R) i j xi yj :
  x !! i = Some xi -> y !! j = Some yj ->
  getitem2 (complex_grid (fst (meshgrid x y)) (snd (meshgrid x y))) j i
  = Ok (mkC xi yj).
Proof.
  intros Hx Hy. unfold getitem2, complex_grid, meshgrid. simpl.
  rewrite lookup_zip_with, !list_lookup_fmap, Hy. simpl.
  rewrite lookup_zip_with, list_lookup_fmap, Hx. simpl.
  now rewrite tau_point.
Qed.

Lemma fill_Z_spec (x y : list R) :
  exists Z,
    fill_Z x y = Ok Z
    /\ shape (length y) (length x) Z
    /\ forall j i, (j < length y)%nat -> (i < length x)%nat ->
         lookup2 Z j i = Some (cell_or_nan (grid_point x y j i)).
Proof.
  unfold fill_Z.
  destruct (meshgrid x y) as [X Y] eqn:EM.
  assert (EX : X = fst (meshgrid x y)) by now rewrite EM.
  assert (EY : Y = snd (meshgrid x y)) by now rewrite EM.
  apply (nested_loops_fill (length y) (length x)
           (fun j i => cell_or_nan (grid_point x y j i))).
  - intros i j Z Hj Hi.
    destruct (lookup_lt_is_Some_2 x i Hi) as [xi Hxi].
    destruct (lookup_lt_is_Some_2 y j Hj) as [yj Hyj].
    rewrite EX, EY, (complex_grid_lookup x y i j xi yj Hxi Hyj). simpl.
    unfold grid_point. rewrite Hxi, Hyj. simpl.
    now rewrite cell_value_or_nan.
  - rewrite EX. apply meshgrid_shape.
Qed.

Lemma log_magnitude_shape rows cols (Z : list (list complex128)) :
  shape rows cols Z -> shape rows cols (log_magnitude Z).
Proof.
  intros [HL HF]. unfold log_magnitude. split.
  - now rewrite length_fmap.
  - apply Forall_fmap. eapply Forall_impl; [exact HF |].
    intros row Hrow. simpl. now rewrite length_fmap.
Qed.










(** The grid [plot_modular_form] draws is 40 by 40, and the call returns. *)
Lemma linspace_length (start stop : R) (num : nat) :
  length (linspace start stop num) = num.
Proof. unfold linspace. now rewrite length_fmap, length_seq. Qed.

Lemma j_invariant_total (self : EllipticCurve) (tau : option C) :
  exists v, j_invariant self tau = Ok v.
Proof.
  destruct tau as [tau |]; simpl; [eexists; reflexivity |].
  destruct (feq0 (discriminant self)) eqn:Hd; [eexists; reflexivity |].
  unfold py_truediv. rewrite Hd. eexists; reflexivity.
Qed.

Lemma plot_modular_form_total (self : EllipticCurve) :
  exists m,
    plot_modular_form self = Ok m
    /\ length (Z_abs m) = 40%nat
    /\ Forall (fun row => length row = 40%nat) (Z_abs m).
Proof.
  unfold plot_modular_form.
  destruct (fill_Z_spec (linspace (-3) 3 40) (linspace (1 / 10) 3 40))
    as (Z & EZ & HS & _).
  destruct (log_magnitude_shape _ _ Z HS) as [HL HF].
  rewrite !linspace_length in *.
  unfold field_over. rewrite EZ. cbn [mbind py_bind].
  destruct (j_invariant_total self (Some (RtoC 0 + Ci * RtoC 1)%C)) as [v1 E1].
  destruct (j_invariant_total self (Some (RtoC (1 / 2) + Ci * RtoC (sqrt 3 / 2))%C))
    as [v2 E2].
  destruct (j_invariant_total self None) as [v3 E3].
  cbn [mbind py_bind]. rewrite E1. cbn [mbind py_bind]. rewrite E2.
  cbn [mbind py_bind]. rewrite E3. cbn [mbind py_bind].
  eexists. split; [reflexivity |]. simpl. split; assumption.
Qed.

(** ** The update handler *)

Lemma update_plot_invalid_a (g : Gui) :
  float_of_str (text_box_a g) = Raise ValueError ->
  update_plot g
  = (Ok tt, mkGui (curve g) (text_box_a g) (text_box_b g)
                  (stdout g ++ [error_line]) (canvas g)).
Proof.
  intros Ha. unfold update_plot, try_except, mbind, act_bind, eval.
  rewrite Ha. reflexivity.
Qed.

Lemma update_plot_invalid_b (g : Gui) (new_a : pyfloat) :
  float_of_str (text_box_a g) = Ok new_a ->
  float_of_str (text_box_b g) = Raise ValueError ->
  update_plot g
  = (Ok tt, mkGui (mkCurve new_a (b (curve g))) (text_box_a g) (text_box_b g)
                  (stdout g ++ [error_line]) (canvas g)).
Proof.
  intros Ha Hb. unfold update_plot, try_except, mbind, act_bind, eval.
  rewrite Ha. cbn [set_a text_box_b]. rewrite Hb. reflexivity.
Qed.

Lemma update_plot_valid (g : Gui) (new_a new_b : pyfloat) :
  float_of_str (text_box_a g) = Ok new_a ->
  float_of_str (text_box_b g) = Ok new_b ->
  exists m,
    plot_modular_form (mkCurve new_a new_b) = Ok m
    /\ update_plot g
       = (Ok tt, mkGui (mkCurve new_a new_b) (text_box_a g) (text_box_b g)
                       (stdout g)
                       (Some (plot_current_curve (mkCurve new_a new_b), m))).
Proof.
  intros Ha Hb.
  destruct (plot_modular_form_total (mkCurve new_a new_b)) as (m & Em & _).
  exists m. split; [exact Em |].
  unfold update_plot, try_except, mbind, act_bind, eval.
  rewrite Ha. cbn [set_a text_box_b]. rewrite Hb.
  cbn [set_b curve a b]. rewrite Em. reflexivity.
Qed.

Lemma float_of_str_2 : float_of_str "2" = Ok (Fin 2).
Proof.
  unfold float_of_str.
  replace (float_syntax "2") with (Some (LDec false 2 0))
    by (vm_compute; reflexivity).
  simpl. do 2 f_equal. lra.
Qed.

Lemma float_of_str_abc : float_of_str "abc" = Raise ValueError.
Proof.
  unfold float_of_str.
  replace (float_syntax "abc") with (@None literal) by (vm_compute; reflexivity).
  reflexivity.
Qed.

(** ** C7 *)

(** C7 fails on the code.  With the model at a = -1, b = 0, the text "2"
    for a and the non-numeric text "abc" for b, the handler reports the
    failure and redraws nothing, but it has already stored a: the model is
    left at a = 2, b = 0, not at the previous pair. *)
Theorem update_plot_keeps_half_an_update :
  let g := mkGui fixture "2" "abc" [] None in
  float_of_str (text_box_b g) = Raise ValueError
  /\ update_plot g
     = (Ok tt, mkGui (mkCurve (Fin 2) (Fin 0)) "2" "abc" [error_line] None)
  /\ curve (snd (update_plot g)) <> curve g.
Proof.
  intros g.
  assert (E : update_plot g
              = (Ok tt, mkGui (mkCurve (Fin 2) (Fin 0)) "2" "abc"
                              [error_line] None)).
  { apply (update_plot_invalid_b g (Fin 2)).
    - exact float_of_str_2.
    - exact float_of_str_abc. }
  split; [exact float_of_str_abc |]. split; [exact E |].
  rewrite E. simpl. unfold fixture. intros [= H]. lra.
Qed.

(* ================================================================== *)
(** * Further properties of the code *)

(** ** Reflection in the imaginary axis *)

Lemma nome_value (tau : C) :
  nome tau
  = mkC (exp (- (2 * PI * im tau)) * cos (2 * PI * re tau))
        (exp (- (2 * PI * im tau)) * sin (2 * PI * re tau)).
Proof.
  unfold nome, Cexp. simpl.
  replace ((2 * PI * 0 - 0 * 1) * re tau - (2 * PI * 1 + 0 * 0) * im tau)
    with (- (2 * PI * im tau)) by ring.
  replace ((2 * PI * 0 - 0 * 1) * im tau + (2 * PI * 1 + 0 * 0) * re tau)
    with (2 * PI * re tau) by ring.
  reflexivity.
Qed.

Lemma Cconj_add (z w : C) : Cconj (z + w) = (Cconj z + Cconj w)%C.
Proof. apply C_eq; simpl; ring. Qed.

Lemma Cconj_sub (z w : C) : Cconj (z - w) = (Cconj z - Cconj w)%C.
Proof. apply C_eq; simpl; ring. Qed.

Lemma Cconj_mul (z w : C) : Cconj (z * w) = (Cconj z * Cconj w)%C.
Proof. apply C_eq; simpl; ring. Qed.

Lemma Cconj_RtoC (r : R) : Cconj (RtoC r) = RtoC r.
Proof. apply C_eq; simpl; ring. Qed.

Lemma Cconj_pow (z : C) (n : nat) : Cconj (z ^ n) = (Cconj z ^ n)%C.
Proof.
  induction n as [| n IH]; [apply Cconj_RtoC |].
  simpl Cpow. now rewrite Cconj_mul, IH.
Qed.

Lemma Cconj_zero (w : C) : Cconj w = C0 <-> w = C0.
Proof.
  rewrite !C0_iff. simpl. split; intros [H1 H2]; split; lra.
Qed.

Lemma Cconj_div (z w : C) : Cconj (Cdiv z w) = Cdiv (Cconj z) (Cconj w).
Proof.
  apply C_eq; unfold Cdiv, Cnorm2; simpl.
  - f_equal; ring.
  - replace (- im w * - im w) with (im w * im w) by ring.
    unfold Rdiv. ring.
Qed.

Lemma np_div_conj_real (z w : C) :
  real (np_div (Cconj z) (Cconj w)) = real (np_div z w).
Proof.
  unfold np_div.
  destruct (C_eq_dec w C0) as [-> | Hw].
  - destruct (C_eq_dec (Cconj C0) C0) as [_ | H]; [reflexivity |].
    exfalso. apply H. now apply Cconj_zero.
  - destruct (C_eq_dec (Cconj w) C0) as [H | _].
    + exfalso. apply Hw. now apply Cconj_zero.
    + rewrite <- Cconj_div. reflexivity.
Qed.

Lemma nome_mirror (tau : C) : nome (mirror tau) = Cconj (nome tau).
Proof.
  rewrite !nome_value. unfold mirror, Cconj. simpl.
  replace (2 * PI * - re tau) with (- (2 * PI * re tau)) by ring.
  rewrite cos_neg, sin_neg. f_equal. ring.
Qed.

Lemma E4_conj (q : C) : E4_of (Cconj q) = Cconj (E4_of q).
Proof.
  unfold E4_of.
  now rewrite !Cconj_add, !Cconj_mul, Cconj_pow, !Cconj_RtoC.
Qed.

Lemma E6_conj (q : C) : E6_of (Cconj q) = Cconj (E6_of q).
Proof.
  unfold E6_of.
  now rewrite !Cconj_sub, !Cconj_mul, Cconj_pow, !Cconj_RtoC.
Qed.

(** X9.  Reflecting tau in the imaginary axis, x + iy -> -x + iy, changes
    neither the parameters [get_elliptic_curve_params] returns nor the
    field cell, and replaces the q-expansion value of [j_invariant] by its
    complex conjugate: the computed field is symmetric about Re(tau) = 0. *)
Theorem mirror_symmetry (self : EllipticCurve) (tau : C) :
  get_elliptic_curve_params (mirror tau) = get_elliptic_curve_params tau
  /\ cell_value (mirror tau) = cell_value tau
  /\ exists z : complex128,
      j_invariant self (Some tau) = Ok (JComplex z)
      /\ j_invariant self (Some (mirror tau)) = Ok (JComplex (npc_conj z)).
Proof.
  assert (Hp : get_elliptic_curve_params (mirror tau)
               = get_elliptic_curve_params tau).
  { unfold get_elliptic_curve_params.
    rewrite nome_mirror, E4_conj, E6_conj.
    set (E4 := E4_of (nome tau)). set (E6 := E6_of (nome tau)).
    replace (RtoC (-27) * Cconj E4)%C with (Cconj (RtoC (-27) * E4))
      by now rewrite Cconj_mul, Cconj_RtoC.
    replace (RtoC 4 * Cconj E6)%C with (Cconj (RtoC 4 * E6))
      by now rewrite Cconj_mul, Cconj_RtoC.
    replace (RtoC (-27) * (Cconj E4 ^ 3 - Cconj E6 ^ 2))%C
      with (Cconj (RtoC (-27) * (E4 ^ 3 - E6 ^ 2)))
      by now rewrite Cconj_mul, Cconj_sub, !Cconj_pow, Cconj_RtoC.
    replace (RtoC 4 * Cconj E6 ^ 2)%C with (Cconj (RtoC 4 * E6 ^ 2))
      by now rewrite Cconj_mul, Cconj_pow, Cconj_RtoC.
    now rewrite !np_div_conj_real. }
  split; [exact Hp |]. split; [unfold cell_value; now rewrite Hp |].
  exists (of_C (j_q_expansion (nome tau))).
  split; [apply q_expansion_path |].
  rewrite q_expansion_path, nome_mirror.
  change (npc_conj (of_C (j_q_expansion (nome tau))))
    with (of_C (Cconj (j_q_expansion (nome tau)))).
  do 3 f_equal.
  unfold j_q_expansion.
  now rewrite !Cconj_add, !Cconj_mul, Cconj_pow, Cconj_div, !Cconj_RtoC.
Qed.

(** ** The field values *)

Lemma log_magnitude_cell_range (z : complex128) :
  let v := np_log (fadd (np_abs z) (Fin 1)) in
  v <> NInf /\ forall r, v = Fin r -> 0 <= r.
Proof.
  destruct z as [[x | | |] [y | | |]]; simpl;
    try (split; [discriminate | intros r [=]]).
  pose proof (sqrt_pos (x * x + y * y)) as Hs.
  rewrite Rsign_pos by lra.
  split; [discriminate |]. intros r [= <-].
  rewrite <- ln_1.
  destruct (Req_dec_T (sqrt (x * x + y * y)) 0) as [-> | Hne].
  - replace (0 + 1) with 1 by lra. lra.
  - left. apply ln_increasing; lra.
Qed.

(** X12.  No value of the field log(|j| + 1) is negative or minus
    infinity: each cell of the grid [field_over] returns is a non-negative
    real, plus infinity or NaN. *)
Theorem field_values_not_negative (x y : list R) (F : list (list pyfloat)) :
  field_over x y = Ok F ->
  forall j i v,
    lookup2 F j i = Some v -> v <> NInf /\ forall r, v = Fin r -> 0 <= r.
Proof.
  unfold field_over. intros HF j i v Hv.
  destruct (fill_Z x y) as [Z | e]; [| discriminate].
  simpl in HF. injection HF as <-.
  unfold lookup2, log_magnitude in Hv. rewrite list_lookup_fmap in Hv.
  destruct (Z !! j) as [row |]; simpl in Hv; [| discriminate].
  rewrite list_lookup_fmap in Hv.
  destruct (row !! i) as [z |]; simpl in Hv; [| discriminate].
  injection Hv as <-. apply log_magnitude_cell_range.
Qed.

Lemma field_values_not_negative_witness :
  exists F,
    field_over [0] [2] = Ok F
    /\ forall v, lookup2 F 0 0 = Some v -> v <> NInf.
Proof.
  destruct (fill_Z_spec [0] [2]) as (Z & EZ & _).
  exists (log_magnitude Z).
  assert (E : field_over [0] [2] = Ok (log_magnitude Z))
    by (unfold field_over; now rewrite EZ).
  split; [exact E |].
  intros v Hv.
  exact (proj1 (field_values_not_negative [0] [2] _ E 0%nat 0%nat v Hv)).
Defined.

(** ** The older file's field *)

(** X13.  Whenever [plot_modular_form] of [elliptic_curve.py] returns, its
    field is 20 by 20 and does not depend on tau at all: every cell holds
    log(|j| + 1) for the one value j that [j_invariant] returns for the
    stored curve. *)
Theorem legacy_field_is_constant (self : EllipticCurve)
  (Z : list (list pyfloat)) (j : jvalue) :
  LegacyPlot.plot_modular_form self = Ok (Z, j) ->
  Legacy.j_invariant self None = Ok j
  /\ length Z = 20%nat
  /\ Forall (fun row => length row = 20%nat) Z
  /\ forall r c v,
      lookup2 Z r c = Some v -> v = np_log (fadd (jabs j) (Fin 1)).
Proof.
  unfold LegacyPlot.plot_modular_form.
  destruct (Legacy.j_invariant self None) as [j0 | e]; [| discriminate].
  cbn [mbind py_bind]. unfold meshgrid, full_like. cbv beta iota zeta.
  match goal with |- Ok (?z, _) = _ -> _ => set (Z0 := z) end.
  intros H.
  assert (EZ : Z = Z0) by congruence. assert (Ej : j = j0) by congruence.
  subst Z j. clear H. unfold Z0. split; [reflexivity |].
  split; [| split].
  - now rewrite !length_fmap, linspace_length.
  - apply Forall_fmap, Forall_fmap, Forall_fmap, Forall_forall.
    intros yj Hyj. unfold compose. now rewrite !length_fmap, linspace_length.
  - intros r c v. unfold lookup2. rewrite !list_lookup_fmap.
    destruct (linspace (1 / 10) 2 20 !! r);
      cbn [fmap option_fmap option_map mbind option_bind]; [| discriminate].
    rewrite !list_lookup_fmap.
    destruct (linspace (-2) 2 20 !! c);
      cbn [fmap option_fmap option_map]; [| discriminate].
    now intros [= <-].
Qed.

Lemma legacy_field_is_constant_witness :
  exists Z,
    LegacyPlot.plot_modular_form fixture = Ok (Z, JFloat (Fin 108))
    /\ length Z = 20%nat
    /\ forall r c v,
        lookup2 Z r c = Some v
        -> v = np_log (fadd (jabs (JFloat (Fin 108))) (Fin 1)).
Proof.
  assert (Hj : Legacy.j_invariant fixture None = Ok (JFloat (Fin 108))).
  { rewrite legacy_j_invariant_ignores_tau. unfold fixture.
    rewrite weierstrass_path_regular by (unfold Delta; lra).
    do 3 f_equal. unfold j_weierstrass, Delta. lra. }
  assert (E : exists Z,
             LegacyPlot.plot_modular_form fixture = Ok (Z, JFloat (Fin 108))).
  { unfold LegacyPlot.plot_modular_form. rewrite Hj. cbn [mbind py_bind].
    unfold meshgrid. cbv beta iota zeta. eexists. reflexivity. }
  destruct E as [Z E]. exists Z. split; [exact E |].
  destruct (legacy_field_is_constant fixture Z _ E) as (_ & HL & _ & HV).
  split; [exact HL | exact HV].
Defined.

(** ** The right-hand panel of [plot_curve] *)

(** X14.  Every point (x, y) of the "modular form representation" that
    [plot_curve] draws satisfies x^2 + y^2 = |x + y|, so the picture is the
    pair of circles through the origin centred at (1/2, 1/2) and
    (-1/2, -1/2), inside the disc of radius sqrt 2, whatever the curve. *)
Theorem modular_form_representation_two_circles (x y : R) :
  (x, y) ∈ modular_form_representation ->
  x * x + y * y = Rabs (x + y) /\ x * x + y * y <= 2.
Proof.
  unfold modular_form_representation. intros H.
  apply list_elem_of_fmap in H. destruct H as (t & [= -> ->] & _).
  pose proof (sin2_cos2 t) as Hsc. unfold Rsqr in Hsc.
  set (s := sin t) in *. set (c := cos t) in *.
  assert (Hr2 : Rabs (s + c) * Rabs (s + c) = (s + c) * (s + c)).
  { unfold Rabs. destruct (Rcase_abs (s + c)); ring. }
  assert (Hr0 : 0 <= Rabs (s + c)) by apply Rabs_pos.
  split.
  - replace (Rabs (s + c) * c + Rabs (s + c) * s)
      with (Rabs (s + c) * (s + c)) by ring.
    rewrite Rabs_mult, Rabs_Rabsolu.
    replace (Rabs (s + c) * c * (Rabs (s + c) * c)
             + Rabs (s + c) * s * (Rabs (s + c) * s))
      with (Rabs (s + c) * Rabs (s + c) * (s * s + c * c)) by ring.
    rewrite Hsc. ring.
  - replace (Rabs (s + c) * c * (Rabs (s + c) * c)
             + Rabs (s + c) * s * (Rabs (s + c) * s))
      with (Rabs (s + c) * Rabs (s + c) * (s * s + c * c)) by ring.
    rewrite Hsc, Hr2.
    assert (0 <= (s - c) * (s - c)) by apply Rle_0_sqr.
    nra.
Qed.

Lemma modular_form_representation_two_circles_witness :
  exists x y,
    (x, y) ∈ modular_form_representation /\ x * x + y * y = Rabs (x + y).
Proof.
  set (t := 0 + INR 0 * ((2 * PI - 0) / INR (1000 - 1))).
  exists (Rabs (sin t + cos t) * cos t), (Rabs (sin t + cos t) * sin t).
  assert (Hin : (Rabs (sin t + cos t) * cos t, Rabs (sin t + cos t) * sin t)
                ∈ modular_form_representation).
  { unfold modular_form_representation.
    apply list_elem_of_fmap. exists t. split; [reflexivity |].
    unfold linspace. apply list_elem_of_fmap. exists 0%nat.
    split; [reflexivity | apply elem_of_seq; lia]. }
  split; [exact Hin |].
  exact (proj1 (modular_form_representation_two_circles _ _ Hin)).
Defined.

(** ** The update handler, case by case *)

(** X16.  When the text for a is not a number, [update_plot] changes
    nothing but the output: the model keeps both a and b, the canvas is
    not redrawn, one error line is printed and nothing is raised, whatever
    the text for b is. *)
Theorem update_plot_bad_a_changes_nothing (g : Gui) :
  float_of_str (text_box_a g) = Raise ValueError ->
  fst (update_plot g) = Ok tt
  /\ curve (snd (update_plot g)) = curve g
  /\ canvas (snd (update_plot g)) = canvas g
  /\ stdout (snd (update_plot g)) = stdout g ++ [error_line].
Proof.
  intros Ha. rewrite (update_plot_invalid_a g Ha). simpl. tauto.
Qed.

Lemma update_plot_bad_a_changes_nothing_witness :
  let g := mkGui fixture "abc" "3" [] None in
  curve (snd (update_plot g)) = fixture
  /\ canvas (snd (update_plot g)) = None.
Proof.
  intros g.
  destruct (update_plot_bad_a_changes_nothing g float_of_str_abc)
    as (_ & Hc & Hv & _).
  split; [exact Hc | exact Hv].
Defined.

(** X19.  Clicking Update twice on texts that are both numbers gives the
    state one click gives: a successful update is idempotent. *)
Theorem update_plot_idempotent (g : Gui) (new_a new_b : pyfloat) :
  float_of_str (text_box_a g) = Ok new_a ->
  float_of_str (text_box_b g) = Ok new_b ->
  update_plot (snd (update_plot g)) = update_plot g.
Proof.
  intros Ha Hb.
  destruct (update_plot_valid g new_a new_b Ha Hb) as (m & Em & E).
  rewrite E. simpl.
  set (g1 := mkGui _ _ _ _ _).
  destruct (update_plot_valid g1 new_a new_b Ha Hb) as (m' & Em' & E').
  rewrite E'. unfold g1. simpl.
  rewrite Em in Em'. injection Em' as <-. reflexivity.
Qed.

Lemma update_plot_idempotent_witness :
  let g := mkGui fixture "2" "2" [] None in
  update_plot (snd (update_plot g)) = update_plot g.
Proof.
  intros g.
  exact (update_plot_idempotent g (Fin 2) (Fin 2) float_of_str_2 float_of_str_2).
Defined.

(** ** What the newer field depends on *)

(** X20.  In [elliptic_curve1.1.py] the field and the two marked values
    that [plot_modular_form] computes do not depend on the stored curve:
    whenever the call returns for two models, the two grids are the same
    and the values at i and rho are the same; only the title value can
    differ. *)
Theorem plot_modular_form_field_ignores_curve (s1 s2 : EllipticCurve)
  (m1 m2 : ModularPlot) :
  plot_modular_form s1 = Ok m1 ->
  plot_modular_form s2 = Ok m2 ->
  Z_abs m1 = Z_abs m2 /\ j_i m1 = j_i m2 /\ j_rho m1 = j_rho m2.
Proof.
  unfold plot_modular_form. intros E1 E2.
  destruct (field_over (linspace (-3) 3 40) (linspace (1 / 10) 3 40))
    as [F | e]; [| discriminate].
  cbn [mbind py_bind] in E1, E2.
  destruct (j_invariant s1 None) as [t1 | e1] eqn:T1;
    cbn [mbind py_bind j_invariant] in E1; rewrite ?T1 in E1;
    cbn [mbind py_bind] in E1; [| discriminate].
  destruct (j_invariant s2 None) as [t2 | e2] eqn:T2;
    cbn [mbind py_bind j_invariant] in E2; rewrite ?T2 in E2;
    cbn [mbind py_bind] in E2; [| discriminate].
  injection E1 as <-. injection E2 as <-.
  cbn [Z_abs j_i j_rho]. repeat split.
Qed.

Lemma plot_modular_form_field_ignores_curve_witness :
  exists m1 m2,
    plot_modular_form fixture = Ok m1
    /\ plot_modular_form (mkCurve (Fin 2) (Fin 2)) = Ok m2
    /\ Z_abs m1 = Z_abs m2.
Proof.
  destruct (plot_modular_form_total fixture) as (m1 & E1 & _).
  destruct (plot_modular_form_total (mkCurve (Fin 2) (Fin 2))) as (m2 & E2 & _).
  exists m1, m2. split; [exact E1 |]. split; [exact E2 |].
  exact (proj1 (plot_modular_form_field_ignores_curve _ _ _ _ E1 E2)).
Defined.

(* ================================================================== *)
(** * Further properties on binary64 *)

Section Binary64_further.

Local Open Scope float_scope.


(** X5.  The guard on the discriminant does its work: [j_invariant] never
    raises [ZeroDivisionError].  The one exception it can raise is the
    [OverflowError] of a power, and it does raise it, at a = 1e200. *)
Theorem j_invariant_raises_only_overflow {L : Binary64.Libm}
  (self : Binary64.EllipticCurve) (tau : option Binary64.complex128)
  (e : exn) :
  Binary64.j_invariant self tau = Raise e -> e = OverflowError.
Proof.
  destruct tau as [tau |]; [discriminate |].
  unfold Binary64.j_invariant, Binary64.discriminant.
  destruct (Binary64.float_pow (Binary64.a self) 3) as [a3 | e1] eqn:Ha;
    cbn [mbind py_bind].
  2: { intros [= <-]. eapply float_pow_raises; exact Ha. }
  destruct (Binary64.float_pow (Binary64.b self) 2) as [b2 | e2] eqn:Hb;
    cbn [mbind py_bind].
  2: { intros [= <-]. eapply float_pow_raises; exact Hb. }
  destruct (_ =? 0) eqn:E; [discriminate |].
  unfold Binary64.py_truediv. rewrite E. discriminate.
Qed.

Lemma j_invariant_raises_only_overflow_witness :
  exists e,
    Binary64.j_invariant (L := Binary64.reference)
      (Binary64.mkCurve 0x1.4e718d7d7625ap+664 0) None
    = Raise e
    /\ e = OverflowError.
Proof.
  assert (He : Binary64.j_invariant (L := Binary64.reference)
                 (Binary64.mkCurve 0x1.4e718d7d7625ap+664 0) None
               = Raise OverflowError)
    by (vm_compute; reflexivity).
  exists OverflowError. split; [exact He |].
  exact (j_invariant_raises_only_overflow (L := Binary64.reference) _ _ _ He).
Defined.

(** X6.  The inner loop of [plot_modular_form] repeats the Weierstrass
    path of [j_invariant] on the parameters of the cell: it stores what
    [j_invariant] would return for that curve, the sentinel included, and
    raises exactly when [j_invariant] would. *)
Theorem cell_agrees_with_j_invariant {L : Binary64.Libm} (a b : float) :
  Binary64.cell_from_params a b
  = match Binary64.j_invariant (Binary64.mkCurve a b) None with
    | Ok (Binary64.JFloat v) => Ok (Binary64.mkComplex v 0)
    | Ok (Binary64.JComplex z) => Ok z
    | Raise e => Raise e
    end.
Proof.
  unfold Binary64.cell_from_params, Binary64.j_invariant, Binary64.discriminant.
  cbn [Binary64.a Binary64.b].
  destruct (Binary64.float_pow a 3) as [a3 | e1]; cbn [mbind py_bind];
    [| reflexivity].
  destruct (Binary64.float_pow b 2) as [b2 | e2]; cbn [mbind py_bind];
    [| reflexivity].
  destruct (_ =? 0) eqn:E; cbn [negb]; [reflexivity |].
  unfold Binary64.py_truediv. rewrite E. reflexivity.
Qed.

(** X23.  Where [np.exp] underflows to zero, as it does from Im(tau) about
    119 upwards, the q-expansion path returns inf + nan j, without
    raising: 1/q is numpy's division by zero. *)
Theorem j_invariant_at_vanishing_nome {L : Binary64.Libm}
  (self : Binary64.EllipticCurve) (tau : Binary64.complex128) :
  Binary64.c_is_zero (Binary64.nome_spec tau) = true ->
  Binary64.j_invariant self (Some tau)
  = Ok (Binary64.JComplex (Binary64.mkComplex infinity nan)).
Proof.
  intros H. rewrite q_expansion_path_binary64.
  destruct (Binary64.nome_spec tau) as [qr qi].
  unfold Binary64.c_is_zero in H. cbn [Binary64.real Binary64.imag] in H.
  apply andb_true_iff in H as [Hr Hi].
  destruct (eqb_zero_inv _ Hr) as [-> | ->];
    destruct (eqb_zero_inv _ Hi) as [-> | ->]; vm_compute; reflexivity.
Qed.

Lemma j_invariant_at_vanishing_nome_witness :
  Binary64.j_invariant (L := Binary64.reference) (Binary64.mkCurve (-1) 0)
    (Some (Binary64.mkComplex 0 200))
  = Ok (Binary64.JComplex (Binary64.mkComplex infinity nan)).
Proof.
  exact (j_invariant_at_vanishing_nome (L := Binary64.reference)
           (Binary64.mkCurve (-1) 0) (Binary64.mkComplex 0 200) eq_refl).
Defined.

(** X24.  At tau = 2i, where np.exp(2 pi i tau) = exp(-4 pi) =
    3.4873423562089973e-06, the q-expansion path returns
    287495.9999999632 + 0j and [get_elliptic_curve_params] returns
    (-6.767545818397655, -0.04081632645385122), whatever the stored
    curve. *)
Theorem sample_values_at_2i (self : Binary64.EllipticCurve) :
  Binary64.nome_spec (L := Binary64.reference) (Binary64.mkComplex 0 2)
  = Binary64.mkComplex 0x1.d4102bc3f7d50p-19 0
  /\ Binary64.j_invariant (L := Binary64.reference) self
       (Some (Binary64.mkComplex 0 2))
     = Ok (Binary64.JComplex (Binary64.mkComplex 0x1.18c1ffffffd88p+18 0))
  /\ Binary64.get_elliptic_curve_params (L := Binary64.reference)
       (Binary64.mkComplex 0 2)
     = (-0x1.b11f787f0cc45p+2, -0x1.4e5e0a686389cp-5).
Proof. repeat split; vm_compute; reflexivity. Qed.

(** X25.  On binary64 as on the reals, the q-expansion path reads nothing
    of the stored curve: with tau supplied, any two models return the same
    value, bit for bit, special values included. *)
Theorem j_invariant_tau_ignores_state_binary64 {L : Binary64.Libm}
  (s1 s2 : Binary64.EllipticCurve) (tau : Binary64.complex128) :
  Binary64.j_invariant s1 (Some tau) = Binary64.j_invariant s2 (Some tau).
Proof. reflexivity. Qed.

End Binary64_further.
